(** * GlobalProvider: the storefront's global UI-state store

    A shallow embedding of [src/app/contexts/GlobalProvider.tsx]: the
    [globalState] defaults, the [reducer], the [actions] table and the three
    effects of the [GlobalProvider] component, followed by the properties the
    specification states about them. *)

From Stdlib Require Import String List Bool Arith Lia.
From stdpp Require Import base option list strings gmap.
Import ListNotations.

Local Open Scope string_scope.
Local Open Scope list_scope.

(** ** JavaScript values *)

(** A value of TypeScript type [A | null | undefined]. *)
Inductive Nullish (A : Type) : Type :=
| undefined
| null
| defined (a : A).
Arguments undefined {A}.
Arguments null {A}.
Arguments defined {A} a.

(** [v !== null] *)
Definition not_null {A} (v : Nullish A) : bool :=
  match v with
  | null => false
  | _ => true
  end.

(** What a [throw new Error(message)] carries. *)
Record Error := { message : string }.

(** A call either returns a value or throws. *)
Inductive Result (A : Type) : Type :=
| Return (a : A)
| Throw (e : Error).
Arguments Return {A} a.
Arguments Throw {A} e.

(** The sixteen [case] labels of the reducer's [switch]. *)
Inductive ActionType : Type :=
| OPEN_CART
| CLOSE_CART
| OPEN_DESKTOP_MENU
| CLOSE_DESKTOP_MENU
| OPEN_MOBILE_MENU
| CLOSE_MOBILE_MENU
| OPEN_MODAL
| CLOSE_MODAL
| TOGGLE_PROMOBAR
| TOGGLE_IFRAMES_HIDDEN
| OPEN_SEARCH
| CLOSE_SEARCH
| CLOSE_ALL
| SET_PREVIEW_MODE_CUSTOMER
| SET_IS_CART_READY
| SET_IS_HYDRATED.

(** [switch (t)]: the label selected by the string [t], tried in the order
    the cases are written, with [None] for the [default] branch. *)
Definition switch (t : string) : option ActionType :=
  if String.eqb t "OPEN_CART" then Some OPEN_CART
  else if String.eqb t "CLOSE_CART" then Some CLOSE_CART
  else if String.eqb t "OPEN_DESKTOP_MENU" then Some OPEN_DESKTOP_MENU
  else if String.eqb t "CLOSE_DESKTOP_MENU" then Some CLOSE_DESKTOP_MENU
  else if String.eqb t "OPEN_MOBILE_MENU" then Some OPEN_MOBILE_MENU
  else if String.eqb t "CLOSE_MOBILE_MENU" then Some CLOSE_MOBILE_MENU
  else if String.eqb t "OPEN_MODAL" then Some OPEN_MODAL
  else if String.eqb t "CLOSE_MODAL" then Some CLOSE_MODAL
  else if String.eqb t "TOGGLE_PROMOBAR" then Some TOGGLE_PROMOBAR
  else if String.eqb t "TOGGLE_IFRAMES_HIDDEN" then Some TOGGLE_IFRAMES_HIDDEN
  else if String.eqb t "OPEN_SEARCH" then Some OPEN_SEARCH
  else if String.eqb t "CLOSE_SEARCH" then Some CLOSE_SEARCH
  else if String.eqb t "CLOSE_ALL" then Some CLOSE_ALL
  else if String.eqb t "SET_PREVIEW_MODE_CUSTOMER"
       then Some SET_PREVIEW_MODE_CUSTOMER
  else if String.eqb t "SET_IS_CART_READY" then Some SET_IS_CART_READY
  else if String.eqb t "SET_IS_HYDRATED" then Some SET_IS_HYDRATED
  else None.

(** The string a label stands for. *)
Definition label (k : ActionType) : string :=
  match k with
  | OPEN_CART => "OPEN_CART"
  | CLOSE_CART => "CLOSE_CART"
  | OPEN_DESKTOP_MENU => "OPEN_DESKTOP_MENU"
  | CLOSE_DESKTOP_MENU => "CLOSE_DESKTOP_MENU"
  | OPEN_MOBILE_MENU => "OPEN_MOBILE_MENU"
  | CLOSE_MOBILE_MENU => "CLOSE_MOBILE_MENU"
  | OPEN_MODAL => "OPEN_MODAL"
  | CLOSE_MODAL => "CLOSE_MODAL"
  | TOGGLE_PROMOBAR => "TOGGLE_PROMOBAR"
  | TOGGLE_IFRAMES_HIDDEN => "TOGGLE_IFRAMES_HIDDEN"
  | OPEN_SEARCH => "OPEN_SEARCH"
  | CLOSE_SEARCH => "CLOSE_SEARCH"
  | CLOSE_ALL => "CLOSE_ALL"
  | SET_PREVIEW_MODE_CUSTOMER => "SET_PREVIEW_MODE_CUSTOMER"
  | SET_IS_CART_READY => "SET_IS_CART_READY"
  | SET_IS_HYDRATED => "SET_IS_HYDRATED"
  end.

Section Store.

(** The types the store only passes around, all declared outside this
    repository: the storefront API's [Customer], the site settings of the
    content platform, what React can render other than [null] and
    [undefined], and the values of a modal's props ([any]). *)
Context {Customer Settings Node Any : Type}.

(** ** Data model *)

(** Modelled from the spec: the type of [state.modal], declared in
    [~/lib/types]: "{children: renderable-content | null, props:
    mapping-of-string-to-any}". *)
Record Modal := {
  children : Nullish Node;
  props : gmap string Any;
}.

(** The payload [openModal] builds (line 158): [props] is optional. *)
Record ModalPayload := {
  payload_children : Nullish Node;
  payload_props : option (gmap string Any);
}.

(** [{...p}] for an optional object: spreading [undefined] adds nothing. *)
Definition spread (p : option (gmap string Any)) : gmap string Any :=
  match p with
  | Some m => m
  | None => ∅
  end.

(** [{children: null, props: {}}] *)
Definition empty_modal : Modal := {| children := null; props := ∅ |}.

(** The module-level [globalState] object (lines 11-21). *)
Record Defaults := {
  d_cartOpen : bool;
  d_desktopMenuOpen : bool;
  d_iframesHidden : bool;
  d_mobileMenuOpen : bool;
  d_modal : Modal;
  d_promobarOpen : bool;
  d_searchOpen : bool;
  d_previewModeCustomer : Nullish Customer;
  d_isHydrated : bool;
}.

Definition globalState : Defaults := {|
  d_cartOpen := false;
  d_desktopMenuOpen := false;
  d_iframesHidden := false;
  d_mobileMenuOpen := false;
  d_modal := {| children := null; props := ∅ |};
  d_promobarOpen := true;
  d_searchOpen := false;
  d_previewModeCustomer := undefined;
  d_isHydrated := false;
|}.

(** Modelled from the spec: the type [GlobalState] of [~/lib/types], the
    spec's UIState: four boolean panel flags, the modal slot, the boolean
    toggles [promobarOpen] and [iframesHidden], [previewModeCustomer] of
    type "CustomerRecord | null | undefined", the booleans [isCartReady]
    and [isHydrated], and [settings]. These are the fields of [globalState]
    together with the three added at [useReducer] (lines 193-198). *)
Record GlobalState := {
  cartOpen : bool;
  desktopMenuOpen : bool;
  iframesHidden : bool;
  mobileMenuOpen : bool;
  modal : Modal;
  promobarOpen : bool;
  searchOpen : bool;
  previewModeCustomer : Nullish Customer;
  isHydrated : bool;
  settings : option Settings;
  isPreviewModeEnabled : bool;
  isCartReady : bool;
}.

(** [{...state, field: v}], one definition per overwritten field. *)
Definition with_cartOpen (v : bool) (s : GlobalState) : GlobalState :=
  {| cartOpen := v; desktopMenuOpen := desktopMenuOpen s;
     iframesHidden := iframesHidden s; mobileMenuOpen := mobileMenuOpen s;
     modal := modal s; promobarOpen := promobarOpen s;
     searchOpen := searchOpen s; previewModeCustomer := previewModeCustomer s;
     isHydrated := isHydrated s; settings := settings s;
     isPreviewModeEnabled := isPreviewModeEnabled s;
     isCartReady := isCartReady s |}.

Definition with_desktopMenuOpen (v : bool) (s : GlobalState) : GlobalState :=
  {| cartOpen := cartOpen s; desktopMenuOpen := v;
     iframesHidden := iframesHidden s; mobileMenuOpen := mobileMenuOpen s;
     modal := modal s; promobarOpen := promobarOpen s;
     searchOpen := searchOpen s; previewModeCustomer := previewModeCustomer s;
     isHydrated := isHydrated s; settings := settings s;
     isPreviewModeEnabled := isPreviewModeEnabled s;
     isCartReady := isCartReady s |}.

Definition with_iframesHidden (v : bool) (s : GlobalState) : GlobalState :=
  {| cartOpen := cartOpen s; desktopMenuOpen := desktopMenuOpen s;
     iframesHidden := v; mobileMenuOpen := mobileMenuOpen s;
     modal := modal s; promobarOpen := promobarOpen s;
     searchOpen := searchOpen s; previewModeCustomer := previewModeCustomer s;
     isHydrated := isHydrated s; settings := settings s;
     isPreviewModeEnabled := isPreviewModeEnabled s;
     isCartReady := isCartReady s |}.

Definition with_mobileMenuOpen (v : bool) (s : GlobalState) : GlobalState :=
  {| cartOpen := cartOpen s; desktopMenuOpen := desktopMenuOpen s;
     iframesHidden := iframesHidden s; mobileMenuOpen := v;
     modal := modal s; promobarOpen := promobarOpen s;
     searchOpen := searchOpen s; previewModeCustomer := previewModeCustomer s;
     isHydrated := isHydrated s; settings := settings s;
     isPreviewModeEnabled := isPreviewModeEnabled s;
     isCartReady := isCartReady s |}.

Definition with_modal (v : Modal) (s : GlobalState) : GlobalState :=
  {| cartOpen := cartOpen s; desktopMenuOpen := desktopMenuOpen s;
     iframesHidden := iframesHidden s; mobileMenuOpen := mobileMenuOpen s;
     modal := v; promobarOpen := promobarOpen s;
     searchOpen := searchOpen s; previewModeCustomer := previewModeCustomer s;
     isHydrated := isHydrated s; settings := settings s;
     isPreviewModeEnabled := isPreviewModeEnabled s;
     isCartReady := isCartReady s |}.

Definition with_promobarOpen (v : bool) (s : GlobalState) : GlobalState :=
  {| cartOpen := cartOpen s; desktopMenuOpen := desktopMenuOpen s;
     iframesHidden := iframesHidden s; mobileMenuOpen := mobileMenuOpen s;
     modal := modal s; promobarOpen := v;
     searchOpen := searchOpen s; previewModeCustomer := previewModeCustomer s;
     isHydrated := isHydrated s; settings := settings s;
     isPreviewModeEnabled := isPreviewModeEnabled s;
     isCartReady := isCartReady s |}.

Definition with_searchOpen (v : bool) (s : GlobalState) : GlobalState :=
  {| cartOpen := cartOpen s; desktopMenuOpen := desktopMenuOpen s;
     iframesHidden := iframesHidden s; mobileMenuOpen := mobileMenuOpen s;
     modal := modal s; promobarOpen := promobarOpen s;
     searchOpen := v; previewModeCustomer := previewModeCustomer s;
     isHydrated := isHydrated s; settings := settings s;
     isPreviewModeEnabled := isPreviewModeEnabled s;
     isCartReady := isCartReady s |}.

Definition with_previewModeCustomer (v : Nullish Customer) (s : GlobalState)
  : GlobalState :=
  {| cartOpen := cartOpen s; desktopMenuOpen := desktopMenuOpen s;
     iframesHidden := iframesHidden s; mobileMenuOpen := mobileMenuOpen s;
     modal := modal s; promobarOpen := promobarOpen s;
     searchOpen := searchOpen s; previewModeCustomer := v;
     isHydrated := isHydrated s; settings := settings s;
     isPreviewModeEnabled := isPreviewModeEnabled s;
     isCartReady := isCartReady s |}.

Definition with_isHydrated (v : bool) (s : GlobalState) : GlobalState :=
  {| cartOpen := cartOpen s; desktopMenuOpen := desktopMenuOpen s;
     iframesHidden := iframesHidden s; mobileMenuOpen := mobileMenuOpen s;
     modal := modal s; promobarOpen := promobarOpen s;
     searchOpen := searchOpen s; previewModeCustomer := previewModeCustomer s;
     isHydrated := v; settings := settings s;
     isPreviewModeEnabled := isPreviewModeEnabled s;
     isCartReady := isCartReady s |}.

Definition with_isCartReady (v : bool) (s : GlobalState) : GlobalState :=
  {| cartOpen := cartOpen s; desktopMenuOpen := desktopMenuOpen s;
     iframesHidden := iframesHidden s; mobileMenuOpen := mobileMenuOpen s;
     modal := modal s; promobarOpen := promobarOpen s;
     searchOpen := searchOpen s; previewModeCustomer := previewModeCustomer s;
     isHydrated := isHydrated s; settings := settings s;
     isPreviewModeEnabled := isPreviewModeEnabled s;
     isCartReady := v |}.

(** ** Actions *)

(** Modelled from the spec: the type [Action] of [~/lib/types], a [type]
    with the payload the operation of that kind takes: content and optional
    props for [OPEN_MODAL], a customer or [null] or [undefined] for
    [SET_PREVIEW_MODE_CUSTOMER], a boolean for the two toggles and the two
    [SET_IS_*] kinds, none for the others. This is what the [actions] table
    builds (lines 138-187). An action whose [type] is no case label is one
    the type excludes and JavaScript allows; the reducer never reads its
    payload. *)
Definition Payload (k : option ActionType) : Type :=
  match k with
  | Some OPEN_MODAL => ModalPayload
  | Some TOGGLE_PROMOBAR => bool
  | Some TOGGLE_IFRAMES_HIDDEN => bool
  | Some SET_PREVIEW_MODE_CUSTOMER => Nullish Customer
  | Some SET_IS_CART_READY => bool
  | Some SET_IS_HYDRATED => bool
  | _ => unit
  end.

(** An action object [{type, payload}]: [type] is any string. *)
Record Action := {
  type : string;
  payload : Payload (switch type);
}.

(** ** The reducer (lines 23-136) *)

Definition reducer (state : GlobalState) (action : Action)
  : Result GlobalState :=
  match switch (type action) as k return Payload k -> Result GlobalState with
  | Some OPEN_CART => fun _ =>
      Return (with_searchOpen false
             (with_modal {| children := null; props := ∅ |}
             (with_mobileMenuOpen false
             (with_desktopMenuOpen false
             (with_cartOpen true state)))))
  | Some CLOSE_CART => fun _ =>
      Return (with_cartOpen false state)
  | Some OPEN_DESKTOP_MENU => fun _ =>
      Return (with_searchOpen false
             (with_modal {| children := null; props := ∅ |}
             (with_mobileMenuOpen false
             (with_desktopMenuOpen true
             (with_cartOpen false state)))))
  | Some CLOSE_DESKTOP_MENU => fun _ =>
      Return (with_desktopMenuOpen false state)
  | Some OPEN_MOBILE_MENU => fun _ =>
      Return (with_searchOpen false
             (with_modal {| children := null; props := ∅ |}
             (with_mobileMenuOpen true
             (with_desktopMenuOpen false
             (with_cartOpen false state)))))
  | Some CLOSE_MOBILE_MENU => fun _ =>
      Return (with_mobileMenuOpen false state)
  | Some OPEN_MODAL => fun p =>
      Return (with_searchOpen false
             (with_modal {| children := payload_children p;
                            props := spread (payload_props p) |}
             (with_mobileMenuOpen false
             (with_desktopMenuOpen false
             (with_cartOpen false state)))))
  | Some CLOSE_MODAL => fun _ =>
      Return (with_modal {| children := null; props := ∅ |} state)
  | Some TOGGLE_PROMOBAR => fun p =>
      Return (with_promobarOpen p state)
  | Some TOGGLE_IFRAMES_HIDDEN => fun p =>
      Return (with_iframesHidden p state)
  | Some OPEN_SEARCH => fun _ =>
      Return (with_searchOpen true
             (with_modal {| children := null; props := ∅ |}
             (with_mobileMenuOpen false
             (with_desktopMenuOpen false
             (with_cartOpen false state)))))
  | Some CLOSE_SEARCH => fun _ =>
      Return (with_searchOpen false state)
  | Some CLOSE_ALL => fun _ =>
      Return (with_searchOpen false
             (with_modal {| children := null; props := ∅ |}
             (with_mobileMenuOpen false
             (with_desktopMenuOpen false
             (with_cartOpen false state)))))
  | Some SET_PREVIEW_MODE_CUSTOMER => fun p =>
      Return (with_previewModeCustomer p state)
  | Some SET_IS_CART_READY => fun p =>
      Return (with_isCartReady p state)
  | Some SET_IS_HYDRATED => fun p =>
      Return (with_isHydrated p state)
  | None => fun _ =>
      Throw {| message :=
        "Invalid Context action of type: " ++ type action |}
  end (payload action).

(** [useReducer]'s [dispatch], as a store sees it: the reducer's result
    replaces the state; when the reducer throws, the error propagates and
    the state is the one before the call. *)
Definition dispatch_on (state : GlobalState) (action : Action)
  : GlobalState * option Error :=
  match reducer state action with
  | Return state' => (state', None)
  | Throw e => (state, Some e)
  end.

(** The states after each action of a sequence dispatched in turn; an
    action on which the reducer throws ends the sequence. *)
Fixpoint states_after (state : GlobalState) (actions : list Action)
  : list GlobalState :=
  match actions with
  | [] => []
  | a :: rest =>
      match reducer state a with
      | Return state' => state' :: states_after state' rest
      | Throw _ => []
      end
  end.

(** ** The action table (lines 138-187) *)

Record Actions (M : Type) := {
  openCart : M;
  closeCart : M;
  openDesktopMenu : M;
  closeDesktopMenu : M;
  openMobileMenu : M;
  closeMobileMenu : M;
  openModal : Nullish Node -> option (gmap string Any) -> M;
  closeModal : M;
  togglePromobar : bool -> M;
  toggleIframesHidden : bool -> M;
  openSearch : M;
  closeSearch : M;
  closeAll : M;
  setPreviewModeCustomer : Nullish Customer -> M;
  setIsCartReady : bool -> M;
  setIsHydrated : bool -> M;
}.
Arguments openCart {M}.
Arguments closeCart {M}.
Arguments openDesktopMenu {M}.
Arguments closeDesktopMenu {M}.
Arguments openMobileMenu {M}.
Arguments closeMobileMenu {M}.
Arguments openModal {M}.
Arguments closeModal {M}.
Arguments togglePromobar {M}.
Arguments toggleIframesHidden {M}.
Arguments openSearch {M}.
Arguments closeSearch {M}.
Arguments closeAll {M}.
Arguments setPreviewModeCustomer {M}.
Arguments setIsCartReady {M}.
Arguments setIsHydrated {M}.

Definition actions {M : Type} (dispatch : Action -> M) : Actions M := {|
  openCart := dispatch {| type := "OPEN_CART"; payload := tt |};
  closeCart := dispatch {| type := "CLOSE_CART"; payload := tt |};
  openDesktopMenu :=
    dispatch {| type := "OPEN_DESKTOP_MENU"; payload := tt |};
  closeDesktopMenu :=
    dispatch {| type := "CLOSE_DESKTOP_MENU"; payload := tt |};
  openMobileMenu :=
    dispatch {| type := "OPEN_MOBILE_MENU"; payload := tt |};
  closeMobileMenu :=
    dispatch {| type := "CLOSE_MOBILE_MENU"; payload := tt |};
  openModal := fun children props =>
    dispatch {| type := "OPEN_MODAL";
                payload := {| payload_children := children;
                              payload_props := props |} |};
  closeModal := dispatch {| type := "CLOSE_MODAL"; payload := tt |};
  togglePromobar := fun isOpen =>
    dispatch {| type := "TOGGLE_PROMOBAR"; payload := isOpen |};
  toggleIframesHidden := fun isHidden =>
    dispatch {| type := "TOGGLE_IFRAMES_HIDDEN"; payload := isHidden |};
  openSearch := dispatch {| type := "OPEN_SEARCH"; payload := tt |};
  closeSearch := dispatch {| type := "CLOSE_SEARCH"; payload := tt |};
  closeAll := dispatch {| type := "CLOSE_ALL"; payload := tt |};
  setPreviewModeCustomer := fun customer =>
    dispatch {| type := "SET_PREVIEW_MODE_CUSTOMER"; payload := customer |};
  setIsCartReady := fun isReady =>
    dispatch {| type := "SET_IS_CART_READY"; payload := isReady |};
  setIsHydrated := fun isHydrated =>
    dispatch {| type := "SET_IS_HYDRATED"; payload := isHydrated |};
|}.

(** The action an entry of the table hands to [dispatch]. *)
Definition dispatched : Actions Action := actions (fun a => a).

(** ** Construction of the state (lines 190-198) *)

(** Modelled from the spec: what [useRootLoaderData] of [~/hooks] returns,
    "{isPreviewModeEnabled: boolean, siteSettings}", as far as line 195
    reads it: every link of [siteSettings?.data?.siteSettings?.settings]
    may be missing. *)
Record RootLoaderData := {
  loader_isPreviewModeEnabled : bool;
  loader_siteSettings : option (option (option (option Settings)));
}.

(** What [useCart()] returns, as far as line 192 reads it. *)
Record Cart := { status : string }.

(** [cart.status === 'idle'] *)
Definition cartIsIdle (cart : Cart) : bool := String.eqb (status cart) "idle".

(** [{...globalState, settings, isPreviewModeEnabled, isCartReady}] *)
Definition initial_state (loader : RootLoaderData) (cart : Cart)
  : GlobalState := {|
  cartOpen := d_cartOpen globalState;
  desktopMenuOpen := d_desktopMenuOpen globalState;
  iframesHidden := d_iframesHidden globalState;
  mobileMenuOpen := d_mobileMenuOpen globalState;
  modal := d_modal globalState;
  promobarOpen := d_promobarOpen globalState;
  searchOpen := d_searchOpen globalState;
  previewModeCustomer := d_previewModeCustomer globalState;
  isHydrated := d_isHydrated globalState;
  settings :=
    match loader_siteSettings loader with
    | Some (Some (Some settings)) => settings
    | _ => None
    end;
  isPreviewModeEnabled := loader_isPreviewModeEnabled loader;
  isCartReady := cartIsIdle cart;
|}.

(** ** Panel indicators *)

(** The five panel indicators: the four flags and "the modal has
    content" ([modal.children] is not [null]). *)
Definition indicators (s : GlobalState) : list bool :=
  [cartOpen s; desktopMenuOpen s; mobileMenuOpen s; searchOpen s;
   not_null (children (modal s))].

Definition active_panels (s : GlobalState) : nat :=
  length (List.filter (fun b : bool => b) (indicators s)).

Definition at_most_one_panel (s : GlobalState) : Prop := active_panels s <= 1.

(** ** The document *)

(** An element of the rendered document: its lower-case tag name and the
    tokens of its [classList], in order. The document is the list of its
    elements in document order, and an element is referred to by its
    position. *)
Record Element := {
  localName : string;
  classList : list string;
}.

(** [classList.add(token)]: the token is appended unless it is there. *)
Definition classList_add (token : string) (el : Element) : Element :=
  {| localName := localName el;
     classList := if bool_decide (token ∈ classList el)
                  then classList el
                  else classList el ++ [token] |}.

(** [classList.remove(token)] *)
Definition classList_remove (token : string) (el : Element) : Element :=
  {| localName := localName el;
     classList := filter (λ c, c ≠ token) (classList el) |}.

(** [document.querySelectorAll(tag)] for a type selector: the positions of
    the matching elements, in document order. *)
Fixpoint matching_from (i : nat) (tag : string) (document : list Element)
  : list nat :=
  match document with
  | [] => []
  | el :: rest =>
      (if String.eqb (localName el) tag then [i] else [])
        ++ matching_from (S i) tag rest
  end.

Definition querySelectorAll (tag : string) (document : list Element)
  : list nat :=
  matching_from 0 tag document.

(** [[...nodes].forEach(f)] where [f] updates the element in place. *)
Definition forEach (nodes : list nat) (f : Element -> Element)
  (document : list Element) : list Element :=
  foldl (fun doc i => alter f i doc) document nodes.

(** ** The provider's effects (lines 200-233) *)

(** What an effect or a timer callback does to the store: it dispatches an
    action, or arms a timer with a callback and a delay in milliseconds. *)
#[local] Set Warnings "-register-all".
Inductive Command : Type :=
| Dispatch (action : Action)
| SetTimeout (callback : list Command) (delay : nat).
#[local] Set Warnings "register-all".

(** [value.actions]: the action table over the provider's [dispatch]. *)
Definition value_actions : Actions (list Command) :=
  actions (fun a => [Dispatch a]).

(** [state.iframesHidden || state.mobileMenuOpen || state.searchOpen] *)
Definition iframesShouldBeHidden (state : GlobalState) : bool :=
  iframesHidden state || mobileMenuOpen state || searchOpen state.

(** Lines 205-208, dependencies [[]]. *)
Definition hydration_effect (state : GlobalState) : list Command :=
  if isHydrated state then []
  else setIsHydrated value_actions true.

(** Lines 210-219, dependencies [[cartIsIdle]]. *)
Definition cart_ready_effect (cartIsIdle : bool) (state : GlobalState)
  : list Command :=
  if cartIsIdle && negb (isCartReady state)
  then setIsCartReady value_actions true
  else [SetTimeout (setIsCartReady value_actions true) 1000].

(** Lines 221-233, dependencies [[iframesShouldBeHidden]]. *)
Definition iframe_effect (state : GlobalState) (document : list Element)
  : list Element :=
  if negb (isHydrated state) then document
  else
    let iframes := querySelectorAll "iframe" document in
    if iframesShouldBeHidden state
    then forEach iframes (classList_add "!invisible") document
    else forEach iframes (classList_remove "!invisible") document.

(** ** The mounted provider

    React and the browser are modelled by their contracts. An effect runs
    after the first commit and after every commit whose dependency array
    differs from the previous one, and sees the state of its render; what
    effects dispatch is reduced in order before the next render. Time is a
    clock in whole milliseconds; [setTimeout(f, d)] at time [t] runs [f] at
    the tick that brings the clock to [t + d]. *)

(** The dependency arrays of the last commit. *)
Record Deps := {
  dep_cartIsIdle : bool;
  dep_iframesShouldBeHidden : bool;
}.

(** An armed timer: the time it is due and its callback. *)
Record Timer := {
  due : nat;
  callback : list Command;
}.

(** A provider instance and its surroundings: a clock in milliseconds, the
    [useReducer] cell, what [useCart] reports, the dependencies recorded at
    the last commit ([None] before the first), the armed timers in the
    order they were armed, and the document. *)
Record World := {
  now : nat;
  current : GlobalState;
  cart : Cart;
  deps : option Deps;
  timers : list Timer;
  document : list Element;
}.

(** An effect runs at the first commit and whenever its dependency
    differs from the one of the previous commit. *)
Definition dep_changed (previous : option bool) (dep : bool) : bool :=
  match previous with
  | None => true
  | Some d => negb (Bool.eqb d dep)
  end.

(** An effect with no dependencies runs at the first commit only. *)
Definition first_commit (previous : option Deps) : bool :=
  match previous with
  | None => true
  | Some _ => false
  end.

(** The commands the effects of one commit issue, in the order the effects
    are declared; each effect sees the state of the render it belongs to. *)
Definition effect_commands (previous : option Deps) (idle : bool)
  (state : GlobalState) : list Command :=
  (if first_commit previous then hydration_effect state else [])
    ++ (if dep_changed (dep_cartIsIdle <$> previous) idle
        then cart_ready_effect idle state else []).

(** The document after the effects of one commit. *)
Definition effect_document (previous : option Deps) (state : GlobalState)
  (document : list Element) : list Element :=
  if dep_changed (dep_iframesShouldBeHidden <$> previous)
       (iframesShouldBeHidden state)
  then iframe_effect state document
  else document.

(** What one render of the component leaves behind once it is committed:
    the commands of the effects that ran, the dependency arrays of the
    render, and the document. *)
Record Commit := {
  commands : list Command;
  recorded : Deps;
  committed_document : list Element;
}.

(** One render and commit of the component (lines 189-236), given the
    dependency arrays of the previous commit, what [useCart] and
    [useReducer] return, and the document. *)
Definition GlobalProvider (previous : option Deps) (cart : Cart)
  (state : GlobalState) (document : list Element) : Commit :=
  {| commands := effect_commands previous (cartIsIdle cart) state;
     recorded := {| dep_cartIsIdle := cartIsIdle cart;
                    dep_iframesShouldBeHidden :=
                      iframesShouldBeHidden state |};
     committed_document := effect_document previous state document |}.

(** The actions a list of commands dispatches, and the timers it arms. *)
Fixpoint dispatches (commands : list Command) : list Action :=
  match commands with
  | [] => []
  | Dispatch a :: rest => a :: dispatches rest
  | SetTimeout _ _ :: rest => dispatches rest
  end.

Fixpoint armed (now : nat) (commands : list Command) : list Timer :=
  match commands with
  | [] => []
  | Dispatch _ :: rest => armed now rest
  | SetTimeout cb delay :: rest =>
      {| due := now + delay; callback := cb |} :: armed now rest
  end.

(** The queued actions go through the reducer in order. *)
Fixpoint reduce_all (state : GlobalState) (queue : list Action)
  : Result GlobalState :=
  match queue with
  | [] => Return state
  | a :: rest =>
      match reducer state a with
      | Return state' => reduce_all state' rest
      | Throw e => Throw e
      end
  end.

(** The component is rendered and committed, again and again while its
    effects dispatch: the timers of the commit are armed, and what the
    effects dispatched is reduced before the next render. [None] when the
    renders allowed by [fuel] are used up. *)
Fixpoint settle (fuel : nat) (w : World) : option (Result World) :=
  let commit := GlobalProvider (deps w) (cart w) (current w) (document w) in
  let committed (state : GlobalState) := {|
    now := now w;
    current := state;
    cart := cart w;
    deps := Some (recorded commit);
    timers := timers w ++ armed (now w) (commands commit);
    document := committed_document commit;
  |} in
  match dispatches (commands commit) with
  | [] => Some (Return (committed (current w)))
  | queue =>
      match reduce_all (current w) queue with
      | Throw e => Some (Throw e)
      | Return state' =>
          match fuel with
          | 0 => None
          | S fuel' => settle fuel' (committed state')
          end
      end
  end.

(** The provider is mounted at time [now] into a document. *)
Definition mount (now : nat) (loader : RootLoaderData) (cart : Cart)
  (document : list Element) : option (Result World) :=
  settle 1 {| now := now; current := initial_state loader cart;
              cart := cart; deps := None; timers := [];
              document := document |}.

(** What happens to a mounted provider: a consumer's call dispatches an
    action, the cart hook reports a cart, or a millisecond passes. *)
Inductive Event : Type :=
| Dispatched (action : Action)
| CartReported (cart : Cart)
| Tick.

Definition is_due (time : nat) (t : Timer) : bool := Nat.leb (due t) time.

Definition with_current (state : GlobalState) (w : World) : World :=
  {| now := now w; current := state; cart := cart w; deps := deps w;
     timers := timers w; document := document w |}.

(** One event, followed by the renders it causes. When the clock moves,
    the callbacks of the timers that are due run in the order the timers
    were armed. *)
Definition step (ev : Event) (w : World) : option (Result World) :=
  match ev with
  | Dispatched a =>
      match reducer (current w) a with
      | Throw e => Some (Throw e)
      | Return state' => settle 1 (with_current state' w)
      end
  | CartReported c =>
      settle 1 {| now := now w; current := current w; cart := c;
                  deps := deps w; timers := timers w;
                  document := document w |}
  | Tick =>
      let time := S (now w) in
      let fired :=
        concat (map callback (List.filter (is_due time) (timers w))) in
      let pending :=
        List.filter (fun t => negb (is_due time t)) (timers w) in
      match reduce_all (current w) (dispatches fired) with
      | Throw e => Some (Throw e)
      | Return state' =>
          settle 1 {| now := time; current := state'; cart := cart w;
                      deps := deps w;
                      timers := pending ++ armed time fired;
                      document := document w |}
      end
  end.

Fixpoint run (events : list Event) (w : World) : option (Result World) :=
  match events with
  | [] => Some (Return w)
  | ev :: rest =>
      match step ev w with
      | Some (Return w') => run rest w'
      | other => other
      end
  end.

(** The milliseconds that pass during a list of events. *)
Fixpoint elapsed (events : list Event) : nat :=
  match events with
  | [] => 0
  | Tick :: rest => S (elapsed rest)
  | _ :: rest => elapsed rest
  end.

(** ** Vocabulary of the statements *)

(** The four panel flags and the modal of a state. *)
Definition panels_are (s : GlobalState) (cart desktopMenu mobileMenu
  search : bool) (m : Modal) : Prop :=
  cartOpen s = cart /\ desktopMenuOpen s = desktopMenu /\
  mobileMenuOpen s = mobileMenu /\ searchOpen s = search /\ modal s = m.

(** The fields that are neither a panel flag nor the modal agree. *)
Definition same_non_panel (s s' : GlobalState) : Prop :=
  iframesHidden s' = iframesHidden s /\
  promobarOpen s' = promobarOpen s /\
  previewModeCustomer s' = previewModeCustomer s /\
  isHydrated s' = isHydrated s /\
  settings s' = settings s /\
  isPreviewModeEnabled s' = isPreviewModeEnabled s /\
  isCartReady s' = isCartReady s.

(** An element carries the class that hides it. *)
Definition hidden (el : Element) : Prop := "!invisible" ∈ classList el.

(** What the iframe effect does once the provider is hydrated, element by
    element. *)
Definition mark (hide : bool) (el : Element) : Element :=
  if String.eqb (localName el) "iframe"
  then (if hide then classList_add "!invisible" el
        else classList_remove "!invisible" el)
  else el.

(** The world [settle] arrives at: the hydration effect of a first commit
    and the cart-ready effect of a commit on which the cart turned idle have
    been reduced, the timers of the commit are armed and the iframe effect
    has been applied. *)
Definition settled (w : World) : World :=
  let idle := cartIsIdle (cart w) in
  let hydrate := first_commit (deps w) && negb (isHydrated (current w)) in
  let ready :=
    dep_changed (dep_cartIsIdle <$> deps w) idle
    && idle && negb (isCartReady (current w)) in
  {| now := now w;
     current :=
       (if ready then with_isCartReady true else id)
         ((if hydrate then with_isHydrated true else id) (current w));
     cart := cart w;
     deps := Some {| dep_cartIsIdle := idle;
                     dep_iframesShouldBeHidden :=
                       iframesShouldBeHidden (current w) |};
     timers :=
       timers w ++ armed (now w) (effect_commands (deps w) idle (current w));
     document := effect_document (deps w) (current w) (document w) |}.

(** The callback of the cart-ready effect's timer. *)
Definition fallback : list Command := setIsCartReady value_actions true.

(** The timer armed at time [T] by the cart-ready effect is still to fire
    while the clock has not reached [T + 1000], and every armed timer is one
    of that effect, due no earlier. *)
Definition fallback_armed (T : nat) (w : World) : Prop :=
  T <= now w /\
  (forall t, t ∈ timers w -> callback t = fallback /\ T + 1000 <= due t) /\
  (now w < T + 1000 ->
   {| due := T + 1000; callback := fallback |} ∈ timers w).

(** The world a tick leads to, before the renders it causes. *)
Definition ticked (state : GlobalState) (w : World) : World :=
  {| now := S (now w); current := state; cart := cart w; deps := deps w;
     timers := List.filter (fun t => negb (is_due (S (now w)) t)) (timers w);
     document := document w |}.

(** Events that leave the cart-ready flag to the provider: no consumer
    sets it and the cart is never reported idle. *)
Definition quiet (ev : Event) : Prop :=
  match ev with
  | Dispatched a => type a <> "SET_IS_CART_READY"
  | CartReported c => cartIsIdle c = false
  | Tick => True
  end.

(** Events whose dispatched actions are of a kind the reducer knows. *)
Definition known (ev : Event) : Prop :=
  match ev with
  | Dispatched a => exists k, type a = label k
  | _ => True
  end.

(** ** Sample inputs *)

Definition sample_loader : RootLoaderData :=
  {| loader_isPreviewModeEnabled := false; loader_siteSettings := None |}.

Definition idle_cart : Cart := {| status := "idle" |}.

Definition uninitialized_cart : Cart := {| status := "uninitialized" |}.

Definition sample_document : list Element :=
  [{| localName := "div"; classList := ["page"] |};
   {| localName := "iframe"; classList := [] |};
   {| localName := "iframe"; classList := ["!invisible"; "video"] |}].

(** A hydrated provider showing the search overlay. *)
Definition searching : GlobalState :=
  with_searchOpen true
    (with_isHydrated true (initial_state sample_loader idle_cart)).

(** A mounted provider whose cart has not been idle so far. *)
Definition waiting : World :=
  {| now := 5;
     current := with_isHydrated true
                  (initial_state sample_loader uninitialized_cart);
     cart := uninitialized_cart;
     deps := Some {| dep_cartIsIdle := false;
                     dep_iframesShouldBeHidden := false |};
     timers := [{| due := 1000; callback := fallback |}];
     document := sample_document |}.

(** ** Further vocabulary *)

(** The fields of the state, to say which ones a step may change. *)
Inductive Field : Type :=
| f_cartOpen
| f_desktopMenuOpen
| f_iframesHidden
| f_mobileMenuOpen
| f_modal
| f_promobarOpen
| f_searchOpen
| f_previewModeCustomer
| f_isHydrated
| f_settings
| f_isPreviewModeEnabled
| f_isCartReady.

Definition agree (f : Field) (s s' : GlobalState) : Prop :=
  match f with
  | f_cartOpen => cartOpen s' = cartOpen s
  | f_desktopMenuOpen => desktopMenuOpen s' = desktopMenuOpen s
  | f_iframesHidden => iframesHidden s' = iframesHidden s
  | f_mobileMenuOpen => mobileMenuOpen s' = mobileMenuOpen s
  | f_modal => modal s' = modal s
  | f_promobarOpen => promobarOpen s' = promobarOpen s
  | f_searchOpen => searchOpen s' = searchOpen s
  | f_previewModeCustomer => previewModeCustomer s' = previewModeCustomer s
  | f_isHydrated => isHydrated s' = isHydrated s
  | f_settings => settings s' = settings s
  | f_isPreviewModeEnabled => isPreviewModeEnabled s' = isPreviewModeEnabled s
  | f_isCartReady => isCartReady s' = isCartReady s
  end.

(** Two states agree on every field outside a list. *)
Definition agree_except (fs : list Field) (s s' : GlobalState) : Prop :=
  forall f, f ∉ fs -> agree f s s'.

(** The fields the branch of each case label assigns (lines 25-131). *)
Definition writes (k : ActionType) : list Field :=
  match k with
  | OPEN_CART | OPEN_DESKTOP_MENU | OPEN_MOBILE_MENU | OPEN_MODAL
  | OPEN_SEARCH | CLOSE_ALL =>
      [f_cartOpen; f_desktopMenuOpen; f_mobileMenuOpen; f_modal; f_searchOpen]
  | CLOSE_CART => [f_cartOpen]
  | CLOSE_DESKTOP_MENU => [f_desktopMenuOpen]
  | CLOSE_MOBILE_MENU => [f_mobileMenuOpen]
  | CLOSE_MODAL => [f_modal]
  | TOGGLE_PROMOBAR => [f_promobarOpen]
  | TOGGLE_IFRAMES_HIDDEN => [f_iframesHidden]
  | CLOSE_SEARCH => [f_searchOpen]
  | SET_PREVIEW_MODE_CUSTOMER => [f_previewModeCustomer]
  | SET_IS_CART_READY => [f_isCartReady]
  | SET_IS_HYDRATED => [f_isHydrated]
  end.

(** The action is one of the five [OPEN_*] kinds. *)
Definition opens (a : Action) : bool :=
  match switch (type a) with
  | Some (OPEN_CART | OPEN_DESKTOP_MENU | OPEN_MOBILE_MENU | OPEN_MODAL
         | OPEN_SEARCH) => true
  | _ => false
  end.

(** The action is one of the five [CLOSE_*] kinds that close one panel. *)
Definition closes_one (a : Action) : bool :=
  match switch (type a) with
  | Some (CLOSE_CART | CLOSE_DESKTOP_MENU | CLOSE_MOBILE_MENU | CLOSE_MODAL
         | CLOSE_SEARCH) => true
  | _ => false
  end.

(** The five single closes, as the table dispatches them. *)
Definition single_closes : list Action :=
  [closeCart dispatched; closeDesktopMenu dispatched;
   closeMobileMenu dispatched; closeModal dispatched; closeSearch dispatched].

(** The sixteen entries of an action table, in the order they are written,
    the ones that take arguments applied to the given ones. *)
Definition entries {M : Type} (table : Actions M) (content : Nullish Node)
  (modal_props : option (gmap string Any)) (isOpen isHidden : bool)
  (customer : Nullish Customer) (isReady hydrated : bool) : list M :=
  [openCart table; closeCart table; openDesktopMenu table;
   closeDesktopMenu table; openMobileMenu table; closeMobileMenu table;
   openModal table content modal_props; closeModal table;
   togglePromobar table isOpen; toggleIframesHidden table isHidden;
   openSearch table; closeSearch table; closeAll table;
   setPreviewModeCustomer table customer; setIsCartReady table isReady;
   setIsHydrated table hydrated].

(** The case labels in the order of the [switch]. *)
Definition labels : list ActionType :=
  [OPEN_CART; CLOSE_CART; OPEN_DESKTOP_MENU; CLOSE_DESKTOP_MENU;
   OPEN_MOBILE_MENU; CLOSE_MOBILE_MENU; OPEN_MODAL; CLOSE_MODAL;
   TOGGLE_PROMOBAR; TOGGLE_IFRAMES_HIDDEN; OPEN_SEARCH; CLOSE_SEARCH;
   CLOSE_ALL; SET_PREVIEW_MODE_CUSTOMER; SET_IS_CART_READY; SET_IS_HYDRATED].

(** The class tokens of an element other than the one that hides it. *)
Definition other_classes (el : Element) : list string :=
  filter (λ c, c ≠ "!invisible") (classList el).

(** Every iframe of the document is hidden exactly when [hide] is true. *)
Definition iframes_follow (hide : bool) (document : list Element) : Prop :=
  forall el, el ∈ document -> localName el = "iframe" ->
             (hidden el <-> hide = true).

(** A hydrated provider whose iframes follow the flag of its state, the
    flag being the dependency recorded at the last commit. *)
Definition in_sync (w : World) : Prop :=
  isHydrated (current w) = true /\
  (exists d, deps w = Some d /\
             dep_iframesShouldBeHidden d = iframesShouldBeHidden (current w)) /\
  iframes_follow (iframesShouldBeHidden (current w)) (document w).

(** Events through which no consumer sets the hydration flag. *)
Definition leaves_hydration (ev : Event) : Prop :=
  match ev with
  | Dispatched a => type a <> "SET_IS_HYDRATED"
  | _ => True
  end.

(** The state after the callbacks of the timers due at the next tick, when
    those are timers of the cart-ready effect. *)
Definition tick_state (w : World) : GlobalState :=
  match List.filter (is_due (S (now w))) (timers w) with
  | [] => current w
  | _ :: _ => with_isCartReady true (current w)
  end.

(** ** Further sample inputs *)

(** A document none of whose iframes is hidden. *)
Definition plain_document : list Element :=
  [{| localName := "div"; classList := ["page"] |};
   {| localName := "iframe"; classList := [] |}].

(** A mounted, hydrated provider, no panel open, in that document. *)
Definition synced : World :=
  {| now := 5;
     current := with_isHydrated true
                  (initial_state sample_loader uninitialized_cart);
     cart := uninitialized_cart;
     deps := Some {| dep_cartIsIdle := false;
                     dep_iframesShouldBeHidden := false |};
     timers := [{| due := 1000; callback := fallback |}];
     document := plain_document |}.

(** A mounted provider on which a consumer cleared the hydration flag. *)
Definition dehydrated : World :=
  with_current (with_isHydrated false (current waiting)) waiting.

(** ** The reducer *)

Lemma switch_label (k : ActionType) : switch (label k) = Some k.
Proof. destruct k; reflexivity. Qed.

Lemma switch_Some (t : string) (k : ActionType) :
  switch t = Some k -> t = label k.
Proof.
  unfold switch.
  repeat match goal with
         | |- context [String.eqb t ?l] =>
             destruct (String.eqb_spec t l) as [->|_];
             [intros [= <-]; reflexivity|]
         end.
  discriminate.
Qed.

Lemma switch_None (t : string) :
  switch t = None <-> forall k, t <> label k.
Proof.
  split.
  - intros Hnone k ->. rewrite switch_label in Hnone. discriminate.
  - intros Hnot. destruct (switch t) as [k|] eqn:Hk; [|reflexivity].
    apply switch_Some in Hk. destruct (Hnot k Hk).
Qed.

(** Case analysis on the branch of the [switch] an action takes. *)
Ltac by_branch a :=
  let t := fresh "t" in
  let p := fresh "p" in
  destruct a as [t p]; unfold reducer; cbn [type payload];
  revert p; destruct (switch t) as [[]|]; intros p.

Lemma active_panels_sum (s : GlobalState) :
  active_panels s
  = Nat.b2n (cartOpen s) + Nat.b2n (desktopMenuOpen s)
    + Nat.b2n (mobileMenuOpen s) + Nat.b2n (searchOpen s)
    + Nat.b2n (not_null (children (modal s))).
Proof.
  unfold active_panels, indicators.
  destruct (cartOpen s), (desktopMenuOpen s), (mobileMenuOpen s),
    (searchOpen s), (not_null (children (modal s))); reflexivity.
Qed.

Lemma reducer_preserves_at_most_one (s s' : GlobalState) (a : Action) :
  at_most_one_panel s -> reducer s a = Return s' -> at_most_one_panel s'.
Proof.
  unfold at_most_one_panel. rewrite !active_panels_sum.
  by_branch a; intros Hs [= <-]; cbn;
    destruct (cartOpen s), (desktopMenuOpen s), (mobileMenuOpen s),
      (searchOpen s); cbn in *; try lia.
  all: destruct (not_null (payload_children p)); cbn; lia.
Qed.

Lemma states_after_invariant (s : GlobalState) (acts : list Action) :
  at_most_one_panel s -> Forall at_most_one_panel (states_after s acts).
Proof.
  revert s. induction acts as [|a acts IH]; intros s Hs; cbn.
  - constructor.
  - destruct (reducer s a) as [s'|e] eqn:Hstep; [|constructor].
    pose proof (reducer_preserves_at_most_one s s' a Hs Hstep) as Hs'.
    constructor; [exact Hs'|apply IH, Hs'].
Qed.

Lemma initial_state_at_most_one (loader : RootLoaderData) (c : Cart) :
  at_most_one_panel (initial_state loader c).
Proof. unfold at_most_one_panel, active_panels. cbn. lia. Qed.

(** ** The document *)

Lemma elem_of_matching_from (tag : string) (doc : list Element) (i j : nat) :
  j ∈ matching_from i tag doc <->
  i <= j /\ exists el, doc !! (j - i) = Some el /\ localName el = tag.
Proof.
  revert i. induction doc as [|el rest IH]; intros i; cbn [matching_from].
  - split; [intros H; inversion H|intros (_ & el & H & _); discriminate].
  - rewrite elem_of_app, IH. split.
    + intros [Hhere|(Hle & el' & Hlook & Htag)].
      * destruct (String.eqb_spec (localName el) tag) as [Heq|_];
          [|inversion Hhere].
        apply list_elem_of_singleton in Hhere as ->.
        split; [lia|]. exists el. rewrite Nat.sub_diag. auto.
      * split; [lia|]. exists el'. split; [|exact Htag].
        replace (j - i) with (S (j - S i)) by lia. exact Hlook.
    + intros (Hle & el' & Hlook & Htag).
      destruct (decide (j = i)) as [->|Hne].
      * left. rewrite Nat.sub_diag in Hlook. injection Hlook as <-.
        apply String.eqb_eq in Htag. rewrite Htag. apply list_elem_of_here.
      * right. split; [lia|]. exists el'. split; [|exact Htag].
        replace (j - i) with (S (j - S i)) in Hlook by lia. exact Hlook.
Qed.

Lemma elem_of_querySelectorAll (tag : string) (doc : list Element) (j : nat) :
  j ∈ querySelectorAll tag doc <->
  exists el, doc !! j = Some el /\ localName el = tag.
Proof.
  unfold querySelectorAll. rewrite elem_of_matching_from, Nat.sub_0_r.
  split; [intros [_ H]; exact H|intros H; split; [lia|exact H]].
Qed.

Lemma forEach_lookup (nodes : list nat) (f : Element -> Element)
  (doc : list Element) (j : nat) :
  (forall el, f (f el) = f el) ->
  forEach nodes f doc !! j
  = if bool_decide (j ∈ nodes) then f <$> doc !! j else doc !! j.
Proof.
  intros Hidem. unfold forEach. revert doc.
  induction nodes as [|i nodes IH]; intros doc; cbn [foldl].
  - rewrite bool_decide_eq_false_2; [reflexivity|apply not_elem_of_nil].
  - rewrite IH. destruct (decide (i = j)) as [->|Hne].
    + rewrite list_lookup_alter_eq.
      rewrite (bool_decide_eq_true_2 (j ∈ j :: nodes))
        by apply list_elem_of_here.
      destruct (doc !! j) as [el|], (bool_decide (j ∈ nodes)); cbn;
        rewrite ?Hidem; reflexivity.
    + rewrite list_lookup_alter_ne by exact Hne.
      assert (Hiff : j ∈ i :: nodes <-> j ∈ nodes).
      { rewrite elem_of_cons. split; [|auto].
        intros [->|Hin]; [destruct Hne; reflexivity|exact Hin]. }
      rewrite (bool_decide_ext _ _ Hiff). reflexivity.
Qed.

Lemma classList_add_idem (token : string) (el : Element) :
  classList_add token (classList_add token el) = classList_add token el.
Proof.
  unfold classList_add. cbn. f_equal.
  destruct (bool_decide (token ∈ classList el)) eqn:Hin.
  - rewrite Hin. reflexivity.
  - rewrite bool_decide_eq_true_2; [reflexivity|].
    apply elem_of_app. right. apply list_elem_of_here.
Qed.

Lemma classList_remove_idem (token : string) (el : Element) :
  classList_remove token (classList_remove token el)
  = classList_remove token el.
Proof.
  unfold classList_remove. cbn. f_equal.
  induction (classList el) as [|c cs IH]; [reflexivity|].
  rewrite filter_cons. case_decide.
  - rewrite filter_cons, decide_True by assumption. f_equal. exact IH.
  - exact IH.
Qed.

Lemma hidden_classList_add (el : Element) :
  hidden (classList_add "!invisible" el).
Proof.
  unfold hidden, classList_add. cbn. case_bool_decide; [assumption|].
  apply elem_of_app. right. apply list_elem_of_here.
Qed.

Lemma not_hidden_classList_remove (el : Element) :
  ~ hidden (classList_remove "!invisible" el).
Proof.
  unfold hidden, classList_remove. cbn.
  intros [Hne _]%list_elem_of_filter. apply Hne. reflexivity.
Qed.

Lemma iframe_effect_lookup (state : GlobalState) (doc : list Element)
  (j : nat) :
  isHydrated state = true ->
  iframe_effect state doc !! j
  = mark (iframesShouldBeHidden state) <$> doc !! j.
Proof.
  intros Hhyd. unfold iframe_effect, mark. rewrite Hhyd. cbn [negb].
  destruct (iframesShouldBeHidden state);
    (rewrite forEach_lookup;
     [|auto using classList_add_idem, classList_remove_idem]);
    destruct (doc !! j) as [el|] eqn:Hlook; cbn;
    case_bool_decide as Hin; try reflexivity;
    rewrite elem_of_querySelectorAll in Hin.
  all: destruct (String.eqb_spec (localName el) "iframe") as [Htag|Htag];
    try reflexivity.
  all: try (destruct Hin as (el' & Hel' & Htag'); congruence).
  all: exfalso; apply Hin; exists el; auto.
Qed.

Lemma iframe_effect_length (state : GlobalState) (doc : list Element) :
  length (iframe_effect state doc) = length doc.
Proof.
  unfold iframe_effect, forEach.
  destruct (negb (isHydrated state)); [reflexivity|].
  destruct (iframesShouldBeHidden state);
    generalize (querySelectorAll "iframe" doc); intros nodes;
    revert doc; induction nodes as [|i nodes IH]; intros doc; cbn [foldl];
    rewrite ?IH, ?length_alter; reflexivity.
Qed.

(** ** Renders and events *)

Lemma dep_changed_same (b : bool) : dep_changed (Some b) b = false.
Proof. destruct b; reflexivity. Qed.

Lemma settle_settled (w : World) : settle 1 w = Some (Return (settled w)).
Proof.
  destruct w as [n st c d ts doc]. unfold settled, settle, GlobalProvider.
  cbn [now current cart deps timers document commands recorded
       committed_document].
  unfold effect_commands, hydration_effect, cart_ready_effect.
  destruct (first_commit d), (isHydrated st),
    (dep_changed (dep_cartIsIdle <$> d) (cartIsIdle c)),
    (cartIsIdle c), (isCartReady st);
    cbn -[effect_document iframesShouldBeHidden].
  all: unfold effect_document; cbn [fmap option_fmap option_map deps current document dep_iframesShouldBeHidden].
  all: rewrite ?dep_changed_same, ?app_nil_r; try reflexivity.
Qed.

Lemma settled_keeps_panels (w : World) (c d m se : bool) (mo : Modal) :
  panels_are (current w) c d m se mo ->
  panels_are (current (settled w)) c d m se mo.
Proof.
  unfold panels_are, settled. cbn [current].
  destruct (dep_changed _ _ && _ && _), (first_commit _ && _);
    intros H; exact H.
Qed.

Lemma reducer_known (s : GlobalState) (a : Action) :
  (exists k, type a = label k) -> exists s', reducer s a = Return s'.
Proof.
  intros [k Hk].
  assert (Hin : switch (type a) <> None)
    by (rewrite Hk, switch_label; discriminate).
  revert Hin. clear Hk.
  by_branch a; intros Hin; try (eexists; reflexivity).
  destruct Hin; reflexivity.
Qed.

Lemma reducer_keeps_isCartReady (s s' : GlobalState) (a : Action) :
  type a <> "SET_IS_CART_READY" ->
  reducer s a = Return s' -> isCartReady s' = isCartReady s.
Proof.
  destruct a as [t p]. unfold reducer. cbn [type payload].
  revert p. destruct (switch t) as [[]|] eqn:Hk; intros p Hne [= <-];
    try reflexivity.
  destruct Hne. apply switch_Some in Hk. exact Hk.
Qed.

Lemma isCartReady_settled (w : World) :
  isCartReady (current w) = true -> isCartReady (current (settled w)) = true.
Proof.
  intros Hready. unfold settled. cbn [current].
  rewrite Hready, andb_false_r.
  destruct (first_commit (deps w) && negb (isHydrated (current w)));
    exact Hready.
Qed.

Lemma isCartReady_settled_not_idle (w : World) :
  cartIsIdle (cart w) = false ->
  isCartReady (current (settled w)) = isCartReady (current w).
Proof.
  intros Hidle. unfold settled. cbn [current].
  rewrite Hidle, andb_false_r.
  destruct (first_commit (deps w) && negb (isHydrated (current w)));
    reflexivity.
Qed.

Lemma armed_effect_commands (n : nat) (previous : option Deps) (idle : bool)
  (state : GlobalState) (t : Timer) :
  t ∈ armed n (effect_commands previous idle state) ->
  t = {| due := n + 1000; callback := fallback |}.
Proof.
  unfold effect_commands, hydration_effect, cart_ready_effect.
  destruct (first_commit previous), (isHydrated state),
    (dep_changed (dep_cartIsIdle <$> previous) idle),
    (idle && negb (isCartReady state)); cbn [app armed value_actions
      actions setIsHydrated setIsCartReady];
    intros Hin; try (inversion Hin; fail).
  all: apply list_elem_of_singleton in Hin; exact Hin.
Qed.

Lemma fallback_armed_settled (T : nat) (w : World) :
  fallback_armed T w -> fallback_armed T (settled w).
Proof.
  intros (Hnow & Hall & Hpending). unfold fallback_armed, settled.
  cbn [now timers]. split; [exact Hnow|]. split.
  - intros t [Hold|Hnew]%elem_of_app; [apply Hall, Hold|].
    apply armed_effect_commands in Hnew as ->. cbn. split; [reflexivity|lia].
  - intros Hlt. apply elem_of_app. left. apply Hpending, Hlt.
Qed.

(** What the timers that fire dispatch, when they are timers of the
    cart-ready effect. *)
Lemma fired_fallbacks (state : GlobalState) (ts : list Timer) :
  (forall t, t ∈ ts -> callback t = fallback) ->
  armed 0 (concat (map callback ts)) = [] /\
  exists state',
    reduce_all state (dispatches (concat (map callback ts))) = Return state' /\
    (ts = [] -> state' = state) /\
    (ts <> [] -> isCartReady state' = true) /\
    (isCartReady state = true -> isCartReady state' = true).
Proof.
  revert state. induction ts as [|t ts IH]; intros state Hall.
  - split; [reflexivity|]. exists state. cbn. repeat split; congruence.
  - assert (Ht : callback t = fallback) by apply Hall, list_elem_of_here.
    assert (Hts : forall t', t' ∈ ts -> callback t' = fallback)
      by (intros t' Hin; apply Hall, list_elem_of_further, Hin).
    cbn [map concat]. rewrite Ht.
    destruct (IH (with_isCartReady true state) Hts)
      as (Harmed & state' & Hred & Hnil & Hcons & Hkeep).
    split; [exact Harmed|].
    exists state'. split; [exact Hred|].
    repeat split; try discriminate; intros _; apply Hkeep; reflexivity.
Qed.

Lemma armed_nil_any_time (n : nat) (commands : list Command) :
  armed 0 commands = [] -> armed n commands = [].
Proof.
  induction commands as [|[a|cb d] rest IH]; cbn; [reflexivity|exact IH|].
  discriminate.
Qed.

Lemma filter_none {A : Type} (f : A -> bool) (l : list A) :
  (forall x, x ∈ l -> f x = false) -> List.filter f l = [].
Proof.
  induction l as [|x l IH]; intros Hall; cbn; [reflexivity|].
  rewrite (Hall x) by apply list_elem_of_here.
  apply IH. intros y Hy. apply Hall, list_elem_of_further, Hy.
Qed.

Lemma elem_of_List_filter {A : Type} (f : A -> bool) (l : list A) (x : A) :
  x ∈ List.filter f l <-> x ∈ l /\ f x = true.
Proof. rewrite !list_elem_of_In. apply filter_In. Qed.

Lemma step_Tick_armed (T : nat) (w : World) :
  fallback_armed T w ->
  exists state',
    step Tick w = Some (Return (settled (ticked state' w))) /\
    fallback_armed T (ticked state' w) /\
    (S (now w) < T + 1000 -> state' = current w) /\
    (S (now w) = T + 1000 -> isCartReady state' = true) /\
    (isCartReady (current w) = true -> isCartReady state' = true).
Proof.
  intros (Hnow & Hall & Hpending).
  set (due_now := List.filter (is_due (S (now w))) (timers w)).
  assert (Hdue : forall t, t ∈ due_now -> callback t = fallback).
  { intros t [Hin _]%elem_of_List_filter. apply Hall, Hin. }
  destruct (fired_fallbacks (current w) due_now Hdue)
    as (Harmed & state' & Hred & Hnil & Hcons & Hkeep).
  exists state'. split; [|split; [|split; [|split]]].
  - unfold step. fold due_now. rewrite Hred.
    rewrite (armed_nil_any_time _ _ Harmed), app_nil_r.
    apply settle_settled.
  - unfold fallback_armed, ticked. cbn [now timers].
    split; [lia|]. split.
    + intros t [Hin _]%elem_of_List_filter. apply Hall, Hin.
    + intros Hlt. apply elem_of_List_filter. split; [apply Hpending; lia|].
      unfold is_due. cbn [due]. apply negb_true_iff, Nat.leb_gt. exact Hlt.
  - intros Hlt. apply Hnil. apply filter_none. intros t Hin.
    unfold is_due. apply Nat.leb_gt. destruct (Hall t Hin) as [_ Hle]. lia.
  - intros Heq. apply Hcons. intros Hempty.
    assert (Hin : {| due := T + 1000; callback := fallback |} ∈ due_now).
    { apply elem_of_List_filter. split; [apply Hpending; lia|].
      unfold is_due. cbn [due]. apply Nat.leb_le. lia. }
    rewrite Hempty in Hin. inversion Hin.
  - exact Hkeep.
Qed.

(** Every event leads a provider whose timers are the cart-ready effect's
    to another such provider, unless the reducer throws on a dispatched
    action. *)
Lemma step_armed (T : nat) (ev : Event) (w w' : World) :
  fallback_armed T w ->
  step ev w = Some (Return w') ->
  fallback_armed T w' /\
  now w' = now w + elapsed [ev] /\
  (ev = Tick -> now w' = T + 1000 -> isCartReady (current w') = true) /\
  (quiet ev -> cartIsIdle (cart w) = false ->
   isCartReady (current w) = false -> now w' < T + 1000 ->
   isCartReady (current w') = false /\ cartIsIdle (cart w') = false).
Proof.
  intros Harmed Hstep. destruct ev as [a|c|].
  - cbn [step] in Hstep.
    destruct (reducer (current w) a) as [state'|e] eqn:Hred;
      [|discriminate].
    rewrite settle_settled in Hstep. injection Hstep as <-.
    split; [apply fallback_armed_settled; exact Harmed|].
    split; [cbn; lia|]. split; [discriminate|].
    intros Hquiet Hidle Hready _.
    rewrite isCartReady_settled_not_idle by exact Hidle.
    cbn [current with_current settled cart].
    rewrite (reducer_keeps_isCartReady _ _ _ Hquiet Hred). auto.
  - cbn [step] in Hstep. rewrite settle_settled in Hstep.
    injection Hstep as <-.
    split; [apply fallback_armed_settled; exact Harmed|].
    split; [cbn; lia|]. split; [discriminate|].
    intros Hquiet _ Hready _. cbn [quiet] in Hquiet.
    rewrite isCartReady_settled_not_idle by exact Hquiet.
    cbn [current settled cart]. auto.
  - destruct (step_Tick_armed T w Harmed)
      as (state' & Hstep' & Harmed' & Hsame & Hfire & Hkeep).
    rewrite Hstep' in Hstep. injection Hstep as <-.
    split; [apply fallback_armed_settled; exact Harmed'|].
    split; [cbn; lia|]. split.
    + intros _ Hat. apply isCartReady_settled. apply Hfire.
      cbn [now settled ticked] in Hat. exact Hat.
    + intros _ Hidle Hready Hlt. cbn [now settled ticked] in Hlt.
      rewrite isCartReady_settled_not_idle by exact Hidle.
      cbn [current ticked settled cart]. rewrite (Hsame Hlt). auto.
Qed.

Lemma step_total (T : nat) (ev : Event) (w : World) :
  fallback_armed T w -> known ev -> exists w', step ev w = Some (Return w').
Proof.
  intros Harmed Hknown. destruct ev as [a|c|].
  - destruct (reducer_known (current w) a Hknown) as [state' Hred].
    cbn [step]. rewrite Hred, settle_settled. eauto.
  - cbn [step]. rewrite settle_settled. eauto.
  - destruct (step_Tick_armed T w Harmed) as (state' & Hstep & _). eauto.
Qed.




Lemma run_total (T : nat) (es : list Event) (w : World) :
  fallback_armed T w -> Forall known es ->
  exists w', run es w = Some (Return w').
Proof.
  revert w. induction es as [|ev es IH]; intros w Harmed Hknown.
  - exists w. reflexivity.
  - apply Forall_cons in Hknown as [Hev Hes].
    destruct (step_total T ev w Harmed Hev) as [w1 Hstep].
    destruct (step_armed T ev w w1 Harmed Hstep) as (Harmed1 & _).
    cbn [run]. rewrite Hstep. apply IH; assumption.
Qed.

Lemma mount_settled (T : nat) (loader : RootLoaderData) (c : Cart)
  (doc : list Element) :
  mount T loader c doc
  = Some (Return (settled {| now := T; current := initial_state loader c;
                             cart := c; deps := None; timers := [];
                             document := doc |})).
Proof. apply settle_settled. Qed.

(** ** Worked examples *)

(** Scenario 7 of the specification: [OPEN_SEARCH], then [CLOSE_ALL]. *)
Example search_then_close_all :
  states_after (initial_state sample_loader idle_cart)
    [openSearch dispatched; closeAll dispatched]
  = [with_searchOpen true (initial_state sample_loader idle_cart);
     initial_state sample_loader idle_cart].
Proof. reflexivity. Qed.

Example modal_replaces_cart :
  states_after (initial_state sample_loader idle_cart)
    [openCart dispatched; openModal dispatched undefined None]
  = [with_cartOpen true (initial_state sample_loader idle_cart);
     with_modal {| children := undefined; props := ∅ |}
       (initial_state sample_loader idle_cart)].
Proof. reflexivity. Qed.

Example resize_is_no_action :
  dispatch_on searching {| type := "RESIZE"; payload := tt |}
  = (searching,
     Some {| message := "Invalid Context action of type: RESIZE" |}).
Proof. reflexivity. Qed.

Example search_hides_iframes :
  iframe_effect searching sample_document
  = [{| localName := "div"; classList := ["page"] |};
     {| localName := "iframe"; classList := ["!invisible"] |};
     {| localName := "iframe"; classList := ["!invisible"; "video"] |}].
Proof. reflexivity. Qed.

Example closing_search_shows_iframes :
  iframe_effect (with_searchOpen false searching) sample_document
  = [{| localName := "div"; classList := ["page"] |};
     {| localName := "iframe"; classList := [] |};
     {| localName := "iframe"; classList := ["video"] |}].
Proof. reflexivity. Qed.

Example no_iframe_update_before_hydration :
  iframe_effect (with_isHydrated false searching) sample_document
  = sample_document.
Proof. reflexivity. Qed.

(** A cart that stays uninitialized: the flag is set by the timer, at the
    thousandth millisecond and not before. *)
Example fallback_after_a_second :
  match mount 0 sample_loader uninitialized_cart sample_document with
  | Some (Return w0) =>
      match run (repeat Tick 999) w0, run (repeat Tick 1000) w0 with
      | Some (Return w), Some (Return w') =>
          Some (isCartReady (current w0), isHydrated (current w0),
                now w, isCartReady (current w), length (timers w),
                now w', isCartReady (current w'), length (timers w'))
      | _, _ => None
      end
  | _ => None
  end
  = Some (false, true, 999, false, 1, 1000, true, 0).
Proof. vm_compute. reflexivity. Qed.

(** A cart that turns idle after 5 ms: the flag is set at once, and the
    timer armed at the mount stays armed. *)
Example idle_marks_ready_at_once :
  match step (CartReported idle_cart) waiting with
  | Some (Return w) =>
      Some (now w, isCartReady (current w), map due (timers w))
  | _ => None
  end
  = Some (5, true, [1000]).
Proof. reflexivity. Qed.

(** ** The properties the specification states *)

(** C1. Whatever actions are dispatched in turn from the state the
    provider is constructed with, every state a reducer step produces has at
    most one of the five panel indicators active: the flags [cartOpen],
    [desktopMenuOpen], [mobileMenuOpen], [searchOpen] that are true and a
    modal whose [children] is not [null]. *)
Theorem panels_mutually_exclusive :
  forall (loader : RootLoaderData) (c : Cart) (acts : list Action),
    Forall at_most_one_panel (states_after (initial_state loader c) acts).
Proof.
  intros loader c acts.
  apply states_after_invariant, initial_state_at_most_one.
Qed.


(** C3. An action whose [type] is none of the sixteen labels makes the
    reducer throw "Invalid Context action of type: ..." and leaves the
    store's state as it was; an action whose [type] is one of the labels
    makes the reducer return a state, which becomes the store's state
    without an error. *)
Theorem unknown_kind_throws_known_kind_returns :
  forall (s : GlobalState) (a : Action),
    ((forall k, type a <> label k) ->
       reducer s a
       = Throw {| message := "Invalid Context action of type: " ++ type a |}
       /\ dispatch_on s a
          = (s, Some {| message :=
                          "Invalid Context action of type: " ++ type a |})) /\
    ((exists k, type a = label k) ->
       exists s', reducer s a = Return s' /\ dispatch_on s a = (s', None)).
Proof.
  intros s a. unfold dispatch_on. split.
  - intros Hout. apply switch_None in Hout.
    destruct a as [t p]; unfold reducer; cbn [type payload] in *.
    revert p. rewrite Hout. intros p. split; reflexivity.
  - intros [k Hk].
    assert (Hin : switch (type a) <> None)
      by (rewrite Hk, switch_label; discriminate).
    revert Hin. clear Hk.
    by_branch a; intros Hin; try (eexists; split; reflexivity).
    destruct Hin; reflexivity.
Qed.

(** C4. From every state, [CLOSE_CART], [CLOSE_DESKTOP_MENU],
    [CLOSE_MOBILE_MENU] and [CLOSE_SEARCH] return a state whose own flag is
    false and whose every other field, the modal and the three other flags
    included, is the one of the state before; [CLOSE_MODAL] returns a state
    whose modal is [{children: null, props: {}}] and whose every other field
    is the one of the state before. *)
Theorem close_only_clears_its_own :
  forall s : GlobalState,
    (exists s', reducer s {| type := "CLOSE_CART"; payload := tt |}
                = Return s' /\
                panels_are s' false (desktopMenuOpen s) (mobileMenuOpen s)
                  (searchOpen s) (modal s) /\
                same_non_panel s s') /\
    (exists s', reducer s {| type := "CLOSE_DESKTOP_MENU"; payload := tt |}
                = Return s' /\
                panels_are s' (cartOpen s) false (mobileMenuOpen s)
                  (searchOpen s) (modal s) /\
                same_non_panel s s') /\
    (exists s', reducer s {| type := "CLOSE_MOBILE_MENU"; payload := tt |}
                = Return s' /\
                panels_are s' (cartOpen s) (desktopMenuOpen s) false
                  (searchOpen s) (modal s) /\
                same_non_panel s s') /\
    (exists s', reducer s {| type := "CLOSE_SEARCH"; payload := tt |}
                = Return s' /\
                panels_are s' (cartOpen s) (desktopMenuOpen s)
                  (mobileMenuOpen s) false (modal s) /\
                same_non_panel s s') /\
    (exists s', reducer s {| type := "CLOSE_MODAL"; payload := tt |}
                = Return s' /\
                panels_are s' (cartOpen s) (desktopMenuOpen s)
                  (mobileMenuOpen s) (searchOpen s) empty_modal /\
                same_non_panel s s').
Proof.
  intros s. unfold panels_are, same_non_panel.
  repeat split; eexists; (split; [reflexivity|]); repeat split; reflexivity.
Qed.

(** C5. From every state, [CLOSE_ALL] returns a state whose four panel
    flags are false and whose modal is [{children: null, props: {}}], the
    fields that are no panel being the ones of the state before. *)
Theorem close_all_resets_panels :
  forall s : GlobalState,
    exists s', reducer s {| type := "CLOSE_ALL"; payload := tt |}
               = Return s' /\
               panels_are s' false false false false
                 {| children := null; props := ∅ |} /\
               same_non_panel s s'.
Proof.
  intros s. eexists. split; [reflexivity|].
  unfold panels_are, same_non_panel. repeat split; reflexivity.
Qed.

(** C6. For every content [C] and props mapping [P], from every state,
    what [openModal(C, P)] dispatches leaves the store, without an error,
    in a state whose modal is [{children: C, props: P}] and whose four panel
    flags are false; and that is the state of a mounted provider once the
    call and the renders it causes are over. *)
Theorem openModal_then_read :
  forall (C : Nullish Node) (P : gmap string Any),
    (forall s : GlobalState,
       exists s',
         dispatch_on s (openModal dispatched C (Some P)) = (s', None) /\
         panels_are s' false false false false
           {| children := C; props := P |}) /\
    (forall w : World,
       exists w',
         step (Dispatched (openModal dispatched C (Some P))) w
         = Some (Return w') /\
         panels_are (current w') false false false false
           {| children := C; props := P |}).
Proof.
  intros C P. split.
  - intros s. eexists. split; [reflexivity|].
    unfold panels_are. repeat split; reflexivity.
  - intros w. eexists. cbn [step]. split; [apply settle_settled|].
    apply settled_keeps_panels.
    unfold panels_are. repeat split; reflexivity.
Qed.


(** C8. Reducing [SET_IS_HYDRATED(true)] in a state whose [isHydrated] is
    true returns that very state; the hydration effect dispatches nothing
    in such a state; mounting the provider leaves [isHydrated] true and
    the dependencies of a commit recorded, which every later event keeps
    recorded; and no commit of the provider that has a previous one
    dispatches [SET_IS_HYDRATED]. *)
Theorem hydration_is_idempotent :
  (forall s : GlobalState,
     isHydrated s = true ->
     reducer s {| type := "SET_IS_HYDRATED"; payload := true |} = Return s) /\
  (forall state : GlobalState,
     isHydrated state = true -> hydration_effect state = []) /\
  (forall (T : nat) (loader : RootLoaderData) (c : Cart)
          (doc : list Element),
     exists w0, mount T loader c doc = Some (Return w0) /\
                isHydrated (current w0) = true /\ deps w0 <> None) /\
  (forall (ev : Event) (w w' : World),
     step ev w = Some (Return w') -> deps w' <> None) /\
  (forall (d : Deps) (c : Cart) (state : GlobalState) (doc : list Element),
     Forall (fun a => type a <> "SET_IS_HYDRATED")
       (dispatches (commands (GlobalProvider (Some d) c state doc)))).
Proof.
  repeat apply conj.
  - intros s Hhyd. destruct s. cbn in Hhyd. subst. reflexivity.
  - intros state Hhyd. unfold hydration_effect. rewrite Hhyd. reflexivity.
  - intros T loader c doc. eexists. split; [apply mount_settled|].
    split; [|discriminate]. unfold settled. cbn [current deps cart].
    destruct (_ && _ && _); reflexivity.
  - intros ev w w' Hstep.
    assert (Hsettled : exists w1, w' = settled w1).
    { destruct ev as [a|c|]; cbn [step] in Hstep.
      - destruct (reducer (current w) a); [|discriminate].
        rewrite settle_settled in Hstep. injection Hstep as <-. eauto.
      - rewrite settle_settled in Hstep. injection Hstep as <-. eauto.
      - destruct (reduce_all _ _); [|discriminate].
        rewrite settle_settled in Hstep. injection Hstep as <-. eauto. }
    destruct Hsettled as [w1 ->]. discriminate.
  - intros d c state doc. cbn [GlobalProvider commands].
    unfold effect_commands, cart_ready_effect. cbn [first_commit app].
    destruct (dep_changed _ _); [|constructor].
    destruct (cartIsIdle c && negb (isCartReady state)); cbn;
      repeat constructor.
    discriminate.
Qed.

(** C9. The dependency a commit of the provider records for the iframe
    effect is [iframesHidden || mobileMenuOpen || searchOpen]. A commit
    leaves the document alone while [isHydrated] is false, and the iframe
    effect does not run when that flag is the one of the previous commit.
    Once [isHydrated] is true, a commit on which the flag differs from the
    previous one (or a first commit) keeps every element in place, leaves
    the elements that are no iframe as they were, and leaves every iframe
    with the class [!invisible] exactly when
    [iframesHidden || mobileMenuOpen || searchOpen] is true. *)
Theorem iframe_visibility_effect :
  forall (previous : option Deps) (c : Cart) (state : GlobalState)
         (doc : list Element),
    let flag := iframesHidden state || mobileMenuOpen state
                || searchOpen state in
    let doc' := committed_document (GlobalProvider previous c state doc) in
    dep_iframesShouldBeHidden (recorded (GlobalProvider previous c state doc))
    = flag /\
    (isHydrated state = false -> doc' = doc) /\
    (dep_changed (dep_iframesShouldBeHidden <$> previous) flag = false ->
     doc' = doc) /\
    (isHydrated state = true ->
     dep_changed (dep_iframesShouldBeHidden <$> previous) flag = true ->
     length doc' = length doc /\
     forall (i : nat) (el : Element),
       doc !! i = Some el ->
       exists el',
         doc' !! i = Some el' /\
         localName el' = localName el /\
         (localName el = "iframe" -> (hidden el' <-> flag = true)) /\
         (localName el <> "iframe" -> el' = el)).
Proof.
  intros previous c state doc flag.
  change flag with (iframesShouldBeHidden state). clear flag.
  cbn [GlobalProvider committed_document recorded
       dep_iframesShouldBeHidden].
  unfold effect_document. split; [reflexivity|]. split; [|split].
  - intros Hhyd. unfold iframe_effect. rewrite Hhyd.
    destruct (dep_changed _ _); reflexivity.
  - intros ->. reflexivity.
  - intros Hhyd ->. split; [apply iframe_effect_length|].
    intros i el Hlook.
    exists (mark (iframesShouldBeHidden state) el).
    rewrite iframe_effect_lookup, Hlook by assumption.
    split; [reflexivity|]. unfold mark.
    destruct (String.eqb_spec (localName el) "iframe") as [Htag|Htag].
    + destruct (iframesShouldBeHidden state); cbn;
        (split; [reflexivity|]); (split; [|congruence]); intros _.
      * split; [reflexivity|]. intros _. apply hidden_classList_add.
      * split; [|discriminate]. intros Hhid.
        destruct (not_hidden_classList_remove el Hhid).
    + split; [reflexivity|]. split; [congruence|reflexivity].
Qed.

(** C10. The state the provider is constructed with has the four panel
    flags false, the modal [{children: null, props: {}}], [promobarOpen]
    true, [iframesHidden] and [isHydrated] false, [previewModeCustomer]
    undefined and [isCartReady] equal to [cart.status === 'idle']; at most
    one panel indicator is active in it (none is). *)
Theorem initial_state_fields :
  forall (loader : RootLoaderData) (c : Cart),
    let s := initial_state loader c in
    cartOpen s = false /\ desktopMenuOpen s = false /\
    mobileMenuOpen s = false /\ searchOpen s = false /\
    modal s = {| children := null; props := ∅ |} /\
    promobarOpen s = true /\ iframesHidden s = false /\
    isHydrated s = false /\ previewModeCustomer s = undefined /\
    isCartReady s = String.eqb (status c) "idle" /\
    active_panels s = 0 /\ at_most_one_panel s.
Proof.
  intros loader c s. repeat split; try reflexivity.
  apply initial_state_at_most_one.
Qed.

(** ** Further properties of the reducer *)

(** Case analysis on the branches two actions take. *)
Ltac by_kind a :=
  let t := fresh "t" in
  let p := fresh "p" in
  destruct a as [t p]; cbn [type payload] in *;
  revert p; destruct (switch t) as [[]|] eqn:?; intros p.

(** X1. Whatever the state, an [OPEN_*] action after another [OPEN_*]
    action leaves the state the second one alone would have left: the last
    panel opened wins, nothing of the first remains. *)
Theorem last_open_wins :
  forall (s : GlobalState) (a b : Action),
    opens a = true -> opens b = true ->
    reduce_all s [a; b] = reduce_all s [b].
Proof.
  intros s a b. unfold opens, reduce_all, reducer.
  by_kind a; intros Ha; try discriminate Ha;
    by_kind b; intros Hb; try discriminate Hb; reflexivity.
Qed.

(** X2. Dispatching an action twice in a row leaves what dispatching it
    once leaves, a state or the error, whatever the action. *)
Theorem dispatch_twice_is_once :
  forall (s : GlobalState) (a : Action),
    reduce_all s [a; a] = reduce_all s [a].
Proof.
  intros s a. unfold reduce_all, reducer.
  by_kind a; reflexivity.
Qed.

(** X3. A reducer step changes no field other than the ones its branch
    assigns: a [CLOSE_*] or setter action its own field, an [OPEN_*] action
    or [CLOSE_ALL] the four flags and the modal. *)
Theorem reducer_footprint :
  forall (s s' : GlobalState) (a : Action) (k : ActionType),
    switch (type a) = Some k ->
    reducer s a = Return s' ->
    agree_except (writes k) s s'.
Proof.
  intros s s' a k. unfold reducer.
  destruct a as [t p]. cbn [type payload]. revert p.
  destruct (switch t) as [[]|]; intros p [= <-] [= <-] f Hout;
    destruct f; try reflexivity; destruct Hout; cbn [writes];
    repeat constructor.
Qed.

Lemma reducer_keeps_settings (s s' : GlobalState) (a : Action) :
  reducer s a = Return s' ->
  settings s' = settings s /\
  isPreviewModeEnabled s' = isPreviewModeEnabled s.
Proof.
  unfold reducer.
  by_kind a; intros [= <-]; split; reflexivity.
Qed.

(** X4. Opening a panel and closing it again leaves the state [CLOSE_ALL]
    leaves: the panels the opening closed do not come back. *)
Theorem open_then_close_is_close_all :
  forall (s : GlobalState) (content : Nullish Node)
         (p : option (gmap string Any)),
    let close_all := reducer s (closeAll dispatched) in
    reduce_all s [openCart dispatched; closeCart dispatched] = close_all /\
    reduce_all s [openDesktopMenu dispatched; closeDesktopMenu dispatched]
    = close_all /\
    reduce_all s [openMobileMenu dispatched; closeMobileMenu dispatched]
    = close_all /\
    reduce_all s [openModal dispatched content p; closeModal dispatched]
    = close_all /\
    reduce_all s [openSearch dispatched; closeSearch dispatched] = close_all.
Proof. intros s content p. repeat split; reflexivity. Qed.

Lemma closes_commute (s : GlobalState) (a b : Action) :
  closes_one a = true -> closes_one b = true ->
  reduce_all s [a; b] = reduce_all s [b; a].
Proof.
  unfold closes_one, reduce_all, reducer.
  by_kind a; intros Ha; try discriminate Ha;
    by_kind b; intros Hb; try discriminate Hb; reflexivity.
Qed.

Lemma closes_return (s : GlobalState) (a : Action) :
  closes_one a = true -> exists s', reducer s a = Return s'.
Proof.
  unfold closes_one, reducer.
  by_kind a; intros Ha; try discriminate Ha; eexists; reflexivity.
Qed.

Lemma reduce_all_closes_permutation (l l' : list Action) :
  Permutation l l' ->
  Forall (fun a => closes_one a = true) l ->
  forall s : GlobalState, reduce_all s l = reduce_all s l'.
Proof.
  induction 1 as [|a l l' Hperm IH|a b l|l1 l2 l3 H12 IH12 H23 IH23];
    intros Hall s.
  - reflexivity.
  - apply Forall_cons in Hall as [Ha Hl]. cbn [reduce_all].
    destruct (reducer s a); [apply IH, Hl|reflexivity].
  - apply Forall_cons in Hall as [Hb Hall].
    apply Forall_cons in Hall as [Ha Hl].
    pose proof (closes_commute s b a Hb Ha) as Hswap.
    cbn [reduce_all] in Hswap |- *.
    destruct (closes_return s a Ha) as [sa Hsa].
    destruct (closes_return s b Hb) as [sb Hsb].
    rewrite Hsa, Hsb in Hswap |- *.
    destruct (closes_return sa b Hb) as [sab Hsab].
    destruct (closes_return sb a Ha) as [sba Hsba].
    rewrite Hsab, Hsba in Hswap |- *.
    injection Hswap as ->. reflexivity.
  - rewrite IH12 by exact Hall. apply IH23.
    rewrite <- H12. exact Hall.
Qed.

(** X5. The five single closes, dispatched in whatever order, leave the
    state [CLOSE_ALL] leaves. *)
Theorem single_closes_make_close_all :
  forall (s : GlobalState) (l : list Action),
    Permutation l single_closes ->
    reduce_all s l = reducer s (closeAll dispatched).
Proof.
  intros s l Hperm.
  rewrite (reduce_all_closes_permutation l single_closes Hperm).
  - reflexivity.
  - rewrite Hperm. repeat constructor.
Qed.

(** X6. Each setter of the table stores its argument in its own field and
    changes no other: [togglePromobar], [toggleIframesHidden],
    [setPreviewModeCustomer], [setIsCartReady] and [setIsHydrated]. *)
Theorem setters_store_their_argument :
  forall (s : GlobalState) (b : bool) (customer : Nullish Customer),
    (exists s', reducer s (togglePromobar dispatched b) = Return s' /\
                promobarOpen s' = b /\ agree_except [f_promobarOpen] s s') /\
    (exists s', reducer s (toggleIframesHidden dispatched b) = Return s' /\
                iframesHidden s' = b /\
                agree_except [f_iframesHidden] s s') /\
    (exists s', reducer s (setPreviewModeCustomer dispatched customer)
                = Return s' /\
                previewModeCustomer s' = customer /\
                agree_except [f_previewModeCustomer] s s') /\
    (exists s', reducer s (setIsCartReady dispatched b) = Return s' /\
                isCartReady s' = b /\ agree_except [f_isCartReady] s s') /\
    (exists s', reducer s (setIsHydrated dispatched b) = Return s' /\
                isHydrated s' = b /\ agree_except [f_isHydrated] s s').
Proof.
  intros s b customer.
  repeat apply conj; eexists; (split; [reflexivity|]);
    (split; [reflexivity|]);
    intros f Hout; destruct f; try reflexivity;
    destruct Hout; repeat constructor.
Qed.

(** X7. The sixteen entries of the action table dispatch the sixteen case
    labels of the reducer, one each and in the same order, so that no call
    of an entry makes the reducer throw, whatever the arguments and the
    state. *)
Theorem table_entries_match_the_cases :
  forall (content : Nullish Node) (p : option (gmap string Any))
         (isOpen isHidden : bool) (customer : Nullish Customer)
         (isReady hydrated : bool),
    let called :=
      entries dispatched content p isOpen isHidden customer isReady
        hydrated in
    map (fun a => switch (type a)) called = map Some labels /\
    forall s : GlobalState,
      Forall (fun a => exists s', dispatch_on s a = (s', None)) called.
Proof.
  intros content p isOpen isHidden customer isReady hydrated called.
  split; [reflexivity|].
  intros s. repeat constructor; eexists; reflexivity.
Qed.

(** X8. [openModal] called without props stores an empty props mapping,
    and called with [null] content it does what [closeAll] does. *)
Theorem openModal_without_props :
  forall (s : GlobalState) (content : Nullish Node),
    (exists s', reducer s (openModal dispatched content None) = Return s' /\
                modal s' = {| children := content; props := ∅ |}) /\
    reducer s (openModal dispatched null None)
    = reducer s (closeAll dispatched) /\
    reducer s (openModal dispatched null (Some ∅))
    = reducer s (closeAll dispatched).
Proof.
  intros s content. split; [eexists; split; reflexivity|].
  split; reflexivity.
Qed.

(** ** Further properties of the iframe effect *)

Lemma filter_absent (token : string) (l : list string) :
  token ∉ l -> filter (λ c, c ≠ token) l = l.
Proof.
  induction l as [|c l IH]; intros Hout; [reflexivity|].
  apply not_elem_of_cons in Hout as [Hne Hout].
  rewrite filter_cons, decide_True by congruence.
  f_equal. apply IH, Hout.
Qed.

Lemma filter_appended (token : string) (l : list string) :
  filter (λ c, c ≠ token) (l ++ [token]) = filter (λ c, c ≠ token) l.
Proof.
  rewrite filter_app, filter_cons, decide_False
    by (intros Hne; apply Hne; reflexivity).
  rewrite filter_nil. apply app_nil_r.
Qed.

Lemma mark_localName (hide : bool) (el : Element) :
  localName (mark hide el) = localName el.
Proof.
  unfold mark. destruct (String.eqb _ _), hide; reflexivity.
Qed.

Lemma mark_other_classes (hide : bool) (el : Element) :
  other_classes (mark hide el) = other_classes el.
Proof.
  unfold mark, other_classes.
  destruct (String.eqb _ _); [|reflexivity].
  destruct hide; cbn [classList classList_add classList_remove].
  - case_bool_decide; [reflexivity|apply filter_appended].
  - induction (classList el) as [|c cs IH]; [reflexivity|].
    rewrite filter_cons. case_decide.
    + rewrite filter_cons, decide_True by assumption. f_equal. exact IH.
    + exact IH.
Qed.

Lemma mark_NoDup (hide : bool) (el : Element) :
  NoDup (classList el) -> NoDup (classList (mark hide el)).
Proof.
  intros Hnodup. unfold mark.
  destruct (String.eqb _ _); [|exact Hnodup].
  destruct hide; cbn [classList classList_add classList_remove].
  - case_bool_decide as Hin; [exact Hnodup|].
    apply NoDup_app. split; [exact Hnodup|]. split.
    + intros c Hc ->%list_elem_of_singleton. exact (Hin Hc).
    + apply NoDup_singleton.
  - apply NoDup_filter, Hnodup.
Qed.

Lemma mark_idem (hide : bool) (el : Element) :
  mark hide (mark hide el) = mark hide el.
Proof.
  unfold mark at 1. rewrite mark_localName. unfold mark.
  destruct (String.eqb _ _); [|reflexivity].
  destruct hide; [apply classList_add_idem|apply classList_remove_idem].
Qed.

Lemma show_after_hide (el : Element) :
  ~ hidden el ->
  classList_remove "!invisible" (classList_add "!invisible" el) = el.
Proof.
  intros Hshown. destruct el as [name classes].
  unfold hidden, classList_remove, classList_add in *.
  cbn [classList localName] in *.
  rewrite bool_decide_eq_false_2 by exact Hshown.
  rewrite filter_appended, filter_absent by exact Hshown. reflexivity.
Qed.

(** The effect, element by element, whatever the hydration flag. *)
Lemma iframe_effect_lookup_any (state : GlobalState) (doc : list Element)
  (i : nat) :
  iframe_effect state doc !! i
  = (if isHydrated state then mark (iframesShouldBeHidden state) else id)
      <$> doc !! i.
Proof.
  destruct (isHydrated state) eqn:Hhyd.
  - apply iframe_effect_lookup, Hhyd.
  - unfold iframe_effect. rewrite Hhyd. cbn [negb].
    destruct (doc !! i); reflexivity.
Qed.

(** X9. The iframe effect only ever adds or removes the class
    [!invisible]: every element keeps its place and its tag, its other
    class tokens stay as they are and in their order, and a class list
    without repetitions stays without repetitions. *)
Theorem iframe_effect_touches_one_class :
  forall (state : GlobalState) (doc : list Element),
    length (iframe_effect state doc) = length doc /\
    forall (i : nat) (el : Element),
      doc !! i = Some el ->
      exists el',
        iframe_effect state doc !! i = Some el' /\
        localName el' = localName el /\
        other_classes el' = other_classes el /\
        (NoDup (classList el) -> NoDup (classList el')).
Proof.
  intros state doc. split; [apply iframe_effect_length|].
  intros i el Hlook. rewrite iframe_effect_lookup_any, Hlook.
  destruct (isHydrated state); cbn [fmap option_fmap option_map id].
  - eexists. split; [reflexivity|].
    split; [apply mark_localName|].
    split; [apply mark_other_classes|apply mark_NoDup].
  - exists el. auto.
Qed.

(** X10. Running the iframe effect again in the same state changes
    nothing more. *)
Theorem iframe_effect_idempotent :
  forall (state : GlobalState) (doc : list Element),
    iframe_effect state (iframe_effect state doc) = iframe_effect state doc.
Proof.
  intros state doc. apply list_eq. intros i.
  rewrite !iframe_effect_lookup_any.
  destruct (doc !! i) as [el|]; [|reflexivity].
  destruct (isHydrated state); cbn [fmap option_fmap option_map id];
    [rewrite mark_idem|]; reflexivity.
Qed.

(** X11. In a document none of whose iframes is hidden, hiding the
    iframes and then showing them gives the document back. *)
Theorem show_undoes_hide :
  forall (hiding showing : GlobalState) (doc : list Element),
    isHydrated hiding = true -> iframesShouldBeHidden hiding = true ->
    isHydrated showing = true -> iframesShouldBeHidden showing = false ->
    (forall el, el ∈ doc -> localName el = "iframe" -> ~ hidden el) ->
    iframe_effect showing (iframe_effect hiding doc) = doc.
Proof.
  intros hiding showing doc Hhyd1 Hhide Hhyd2 Hshow Hnone.
  apply list_eq. intros i.
  rewrite !iframe_effect_lookup_any, Hhyd1, Hhyd2, Hhide, Hshow.
  destruct (doc !! i) as [el|] eqn:Hlook; [|reflexivity].
  cbn [fmap option_fmap option_map]. f_equal.
  unfold mark at 1. rewrite mark_localName. unfold mark.
  destruct (String.eqb_spec (localName el) "iframe") as [Htag|_];
    [|reflexivity].
  apply show_after_hide, Hnone; [|exact Htag].
  apply list_elem_of_lookup. eauto.
Qed.

(** ** Further properties of the mounted provider *)

Lemma settled_current (w : World) :
  agree_except [f_isHydrated; f_isCartReady] (current w)
    (current (settled w)) /\
  iframesShouldBeHidden (current (settled w))
  = iframesShouldBeHidden (current w) /\
  (isHydrated (current w) = true ->
   isHydrated (current (settled w)) = true) /\
  (deps w <> None ->
   isHydrated (current (settled w)) = isHydrated (current w)).
Proof.
  unfold settled. cbn [current].
  destruct (deps w) as [d|]; cbn [first_commit andb];
    destruct (dep_changed _ _ && _ && _), (isHydrated (current w)) eqn:Hhyd;
    cbn [negb id]; (split; [|split; [|split]]);
    try (intros f Hout; destruct f; try reflexivity;
         destruct Hout; repeat constructor);
    try reflexivity; try (intros; (reflexivity || assumption || congruence)).
Qed.

Lemma fired_fallbacks_state (state : GlobalState) (ts : list Timer) :
  (forall t, t ∈ ts -> callback t = fallback) ->
  reduce_all state (dispatches (concat (map callback ts)))
  = Return match ts with
           | [] => state
           | _ :: _ => with_isCartReady true state
           end.
Proof.
  revert state. induction ts as [|t ts IH]; intros state Hall;
    [reflexivity|].
  assert (Ht : callback t = fallback) by apply Hall, list_elem_of_here.
  assert (Hts : forall t', t' ∈ ts -> callback t' = fallback)
    by (intros t' Hin; apply Hall, list_elem_of_further, Hin).
  cbn [map concat]. rewrite Ht.
  change (reduce_all (with_isCartReady true state)
            (dispatches (concat (map callback ts)))
          = Return (with_isCartReady true state)).
  rewrite (IH _ Hts). destruct ts; reflexivity.
Qed.

Lemma step_Tick_state (T : nat) (w : World) :
  fallback_armed T w ->
  step Tick w = Some (Return (settled (ticked (tick_state w) w))).
Proof.
  intros (Hnow & Hall & Hpending).
  assert (Hdue : forall t, t ∈ List.filter (is_due (S (now w))) (timers w) ->
                           callback t = fallback).
  { intros t [Hin _]%elem_of_List_filter. apply Hall, Hin. }
  destruct (fired_fallbacks (current w) _ Hdue) as (Harmed & _).
  unfold step. rewrite (fired_fallbacks_state _ _ Hdue).
  rewrite (armed_nil_any_time _ _ Harmed), app_nil_r.
  rewrite settle_settled. reflexivity.
Qed.

Lemma tick_state_agrees (w : World) :
  agree_except [f_isCartReady] (current w) (tick_state w).
Proof.
  unfold tick_state. destruct (List.filter _ _);
    intros f Hout; destruct f; try reflexivity;
    destruct Hout; repeat constructor.
Qed.

Lemma mount_armed (T : nat) (loader : RootLoaderData) (c : Cart)
  (doc : list Element) :
  let w0 := settled {| now := T; current := initial_state loader c;
                       cart := c; deps := None; timers := [];
                       document := doc |} in
  timers w0 = [{| due := T + 1000; callback := fallback |}] /\
  fallback_armed T w0.
Proof.
  intros w0.
  assert (Htimers : timers w0
                    = [{| due := T + 1000; callback := fallback |}]).
  { unfold w0, settled. cbn [timers now cart deps current].
    unfold effect_commands, cart_ready_effect.
    cbn [first_commit dep_changed fmap option_fmap option_map
         initial_state isCartReady isHydrated hydration_effect globalState
         d_isHydrated].
    destruct (cartIsIdle c); reflexivity. }
  split; [exact Htimers|].
  unfold fallback_armed. rewrite Htimers. split; [reflexivity|]. split.
  - intros t ->%list_elem_of_singleton. cbn. split; [reflexivity|lia].
  - intros _. apply list_elem_of_here.
Qed.

(** A mounted provider is one whose timers are the cart-ready effect's. *)
Lemma mount_is_armed (T : nat) (loader : RootLoaderData)
  (c : Cart) (doc : list Element) :
  exists w0, mount T loader c doc = Some (Return w0) /\ fallback_armed T w0.
Proof.
  eexists. split; [apply mount_settled|apply mount_armed].
Qed.

(** X12. Mounting never touches the document, whatever classes its
    iframes carry, and always arms exactly one timer, due a second later,
    also when the cart is idle from the start; the state it leaves is the
    constructed one with [isHydrated] set. *)
Theorem mount_arms_one_timer :
  forall (T : nat) (loader : RootLoaderData) (c : Cart) (doc : list Element),
    exists w0,
      mount T loader c doc = Some (Return w0) /\
      now w0 = T /\
      document w0 = doc /\
      timers w0 = [{| due := T + 1000; callback := fallback |}] /\
      isHydrated (current w0) = true /\
      agree_except [f_isHydrated] (initial_state loader c) (current w0).
Proof.
  intros T loader c doc. eexists. split; [apply mount_settled|].
  split; [reflexivity|]. split; [reflexivity|].
  split; [apply mount_armed|].
  unfold settled. cbn [current deps cart first_commit dep_changed fmap
    option_fmap option_map initial_state isCartReady isHydrated globalState
    d_isHydrated andb negb].
  destruct (cartIsIdle c); cbn [andb negb id]; (split; [reflexivity|]);
    intros f Hout; destruct f; try reflexivity;
    destruct Hout; repeat constructor.
Qed.

(** X13. A report of the cart hook changes nothing of the state but
    [isCartReady] and, at a first commit, [isHydrated]; it can set them,
    never clear them. *)
Theorem cart_report_footprint :
  forall (w : World) (c : Cart),
    exists w',
      step (CartReported c) w = Some (Return w') /\
      cart w' = c /\
      agree_except [f_isHydrated; f_isCartReady] (current w) (current w') /\
      (isCartReady (current w) = true -> isCartReady (current w') = true) /\
      (isHydrated (current w) = true -> isHydrated (current w') = true) /\
      (deps w <> None -> isHydrated (current w') = isHydrated (current w)).
Proof.
  intros w c. eexists. cbn [step]. split; [apply settle_settled|].
  split; [reflexivity|].
  set (w1 := {| now := now w; current := current w; cart := c;
                deps := deps w; timers := timers w;
                document := document w |}).
  destruct (settled_current w1) as (Hagree & _ & Hhyd & Hsame).
  split; [exact Hagree|]. split; [apply (isCartReady_settled w1)|].
  split; [exact Hhyd|exact Hsame].
Qed.

(** X14. No event cancels a timer: one that is armed stays armed as long
    as the clock has not reached the time it is due. *)
Theorem timers_are_never_cancelled :
  forall (ev : Event) (w w' : World) (t : Timer),
    step ev w = Some (Return w') ->
    t ∈ timers w -> now w' < due t -> t ∈ timers w'.
Proof.
  intros ev w w' t Hstep Hin Hlater.
  destruct ev as [a|c|]; cbn [step] in Hstep.
  - destruct (reducer (current w) a); [|discriminate].
    rewrite settle_settled in Hstep. injection Hstep as <-.
    cbn [timers settled with_current]. apply elem_of_app. left. exact Hin.
  - rewrite settle_settled in Hstep. injection Hstep as <-.
    cbn [timers settled]. apply elem_of_app. left. exact Hin.
  - destruct (reduce_all _ _); [|discriminate].
    rewrite settle_settled in Hstep. injection Hstep as <-.
    cbn [timers settled now] in Hlater |- *.
    apply elem_of_app. left. apply elem_of_app. left.
    apply elem_of_List_filter. split; [exact Hin|].
    unfold is_due. apply negb_true_iff, Nat.leb_gt. exact Hlater.
Qed.

(** X15. On a mounted provider, a report in which the cart's idleness is
    the one of the last commit arms nothing; a report in which it differs
    arms one more timer, due a second later, unless the cart turned idle
    with [isCartReady] false. The timers armed before stay in place. *)
Theorem every_change_arms_a_timer :
  forall (w : World) (d : Deps) (c : Cart),
    deps w = Some d ->
    exists w',
      step (CartReported c) w = Some (Return w') /\
      timers w'
      = timers w
        ++ (if Bool.eqb (dep_cartIsIdle d) (cartIsIdle c) then []
            else if cartIsIdle c && negb (isCartReady (current w)) then []
            else [{| due := now w + 1000; callback := fallback |}]).
Proof.
  intros w d c Hdeps. eexists. cbn [step].
  split; [apply settle_settled|].
  unfold settled. cbn [timers now cart deps current]. rewrite Hdeps.
  unfold effect_commands, cart_ready_effect.
  cbn [first_commit dep_changed fmap option_fmap option_map app].
  destruct (Bool.eqb _ _); cbn [negb]; [reflexivity|].
  destruct (cartIsIdle c && negb (isCartReady (current w))); reflexivity.
Qed.

Lemma reduce_all_at_most_one (s s' : GlobalState) (queue : list Action) :
  at_most_one_panel s -> reduce_all s queue = Return s' ->
  at_most_one_panel s'.
Proof.
  revert s. induction queue as [|a queue IH]; intros s Hs Hred.
  - injection Hred as <-. exact Hs.
  - cbn [reduce_all] in Hred.
    destruct (reducer s a) as [s1|e] eqn:Hstep; [|discriminate].
    apply (IH s1); [|exact Hred].
    apply (reducer_preserves_at_most_one s s1 a Hs Hstep).
Qed.

Lemma settled_at_most_one (w : World) :
  at_most_one_panel (current w) -> at_most_one_panel (current (settled w)).
Proof.
  unfold settled. cbn [current].
  destruct (dep_changed _ _ && _ && _), (first_commit _ && _);
    intros H; exact H.
Qed.

Lemma step_at_most_one (ev : Event) (w w' : World) :
  at_most_one_panel (current w) -> step ev w = Some (Return w') ->
  at_most_one_panel (current w').
Proof.
  intros Hone Hstep. destruct ev as [a|c|]; cbn [step] in Hstep.
  - destruct (reducer (current w) a) as [s1|e] eqn:Hred; [|discriminate].
    rewrite settle_settled in Hstep. injection Hstep as <-.
    apply settled_at_most_one. cbn [current with_current].
    apply (reducer_preserves_at_most_one _ _ _ Hone Hred).
  - rewrite settle_settled in Hstep. injection Hstep as <-.
    apply settled_at_most_one. exact Hone.
  - destruct (reduce_all _ _) as [s1|e] eqn:Hred; [|discriminate].
    rewrite settle_settled in Hstep. injection Hstep as <-.
    apply settled_at_most_one. cbn [current].
    apply (reduce_all_at_most_one _ _ _ Hone Hred).
Qed.

(** X16. In a mounted provider at most one panel indicator is active
    after every event: neither the effects nor the timers open a panel,
    whatever the consumers dispatch in between. *)
Theorem mounted_provider_has_one_panel :
  forall (T : nat) (loader : RootLoaderData) (c : Cart) (doc : list Element)
         (w0 w : World) (es : list Event),
    mount T loader c doc = Some (Return w0) ->
    run es w0 = Some (Return w) ->
    at_most_one_panel (current w).
Proof.
  intros T loader c doc w0 w es Hmount Hrun.
  assert (Hone : at_most_one_panel (current w0)).
  { rewrite mount_settled in Hmount. injection Hmount as <-.
    apply settled_at_most_one, initial_state_at_most_one. }
  clear Hmount. revert w0 Hone Hrun.
  induction es as [|ev es IH]; intros w0 Hone Hrun.
  - injection Hrun as <-. exact Hone.
  - cbn [run] in Hrun.
    destruct (step ev w0) as [[w1|e]|] eqn:Hstep; try discriminate.
    apply (IH w1); [|exact Hrun].
    apply (step_at_most_one ev w0 w1 Hone Hstep).
Qed.

Lemma reducer_keeps_isHydrated (s s' : GlobalState) (a : Action) :
  type a <> "SET_IS_HYDRATED" ->
  reducer s a = Return s' -> isHydrated s' = isHydrated s.
Proof.
  destruct a as [t p]. unfold reducer. cbn [type payload].
  revert p. destruct (switch t) as [[]|] eqn:Hk; intros p Hne [= <-];
    try reflexivity.
  destruct Hne. apply switch_Some in Hk. exact Hk.
Qed.

Lemma mark_hidden (hide : bool) (el : Element) :
  localName el = "iframe" -> (hidden (mark hide el) <-> hide = true).
Proof.
  intros Htag. unfold mark. apply String.eqb_eq in Htag. rewrite Htag.
  destruct hide.
  - split; [reflexivity|]. intros _. apply hidden_classList_add.
  - split; [|discriminate]. intros Hhid.
    destruct (not_hidden_classList_remove el Hhid).
Qed.

Lemma iframe_effect_follows (state : GlobalState) (doc : list Element) :
  isHydrated state = true ->
  iframes_follow (iframesShouldBeHidden state) (iframe_effect state doc).
Proof.
  intros Hhyd el' [i Hi]%list_elem_of_lookup Htag.
  rewrite iframe_effect_lookup in Hi by exact Hhyd.
  destruct (doc !! i) as [el|]; [|discriminate].
  injection Hi as <-. rewrite mark_localName in Htag.
  apply mark_hidden, Htag.
Qed.

(** The renders after an event bring the iframes of a hydrated provider
    in line with the flag of its state, when they were in line with the
    flag of the last commit. *)
Lemma settled_in_sync (w : World) (d : Deps) :
  isHydrated (current w) = true ->
  deps w = Some d ->
  iframes_follow (dep_iframesShouldBeHidden d) (document w) ->
  in_sync (settled w).
Proof.
  intros Hhyd Hdeps Hfollow.
  destruct (settled_current w) as (_ & Hflag & Hkeep & _).
  unfold in_sync. rewrite Hflag. split; [apply Hkeep, Hhyd|]. split.
  - eexists. split; reflexivity.
  - unfold settled. cbn [document]. unfold effect_document.
    rewrite Hdeps. cbn [fmap option_fmap option_map dep_changed].
    destruct (Bool.eqb_spec (dep_iframesShouldBeHidden d)
                (iframesShouldBeHidden (current w))) as [Heq|_]; cbn [negb].
    + rewrite <- Heq. exact Hfollow.
    + apply iframe_effect_follows, Hhyd.
Qed.

Lemma step_in_sync (T : nat) (ev : Event) (w w' : World) :
  fallback_armed T w -> in_sync w -> leaves_hydration ev ->
  step ev w = Some (Return w') -> in_sync w'.
Proof.
  intros Harmed (Hhyd & (d & Hdeps & Hdep) & Hfollow) Hleaves Hstep.
  rewrite <- Hdep in Hfollow.
  destruct ev as [a|c|].
  - cbn [step] in Hstep.
    destruct (reducer (current w) a) as [s1|e] eqn:Hred; [|discriminate].
    rewrite settle_settled in Hstep. injection Hstep as <-.
    apply (settled_in_sync _ d); [|exact Hdeps|exact Hfollow].
    cbn [current with_current].
    rewrite (reducer_keeps_isHydrated _ _ _ Hleaves Hred). exact Hhyd.
  - cbn [step] in Hstep. rewrite settle_settled in Hstep.
    injection Hstep as <-.
    apply (settled_in_sync _ d); assumption.
  - rewrite (step_Tick_state T w Harmed) in Hstep. injection Hstep as <-.
    apply (settled_in_sync _ d); [|exact Hdeps|exact Hfollow].
    cbn [current ticked].
    rewrite (tick_state_agrees w f_isHydrated); [exact Hhyd|].
    intros Hin. apply list_elem_of_singleton in Hin. discriminate.
Qed.

(** X17. After the provider is mounted into a document none of whose
    iframes is hidden, the provider is hydrated and every iframe is hidden
    exactly when [iframesHidden || mobileMenuOpen || searchOpen] is true in
    its state, after every event, as long as no consumer sets the hydration
    flag. *)
Theorem iframes_follow_the_flag :
  forall (T : nat) (loader : RootLoaderData) (c : Cart) (doc : list Element)
         (w0 w : World) (es : list Event),
    iframes_follow false doc ->
    mount T loader c doc = Some (Return w0) ->
    Forall leaves_hydration es ->
    run es w0 = Some (Return w) ->
    isHydrated (current w) = true /\
    iframes_follow
      (iframesHidden (current w) || mobileMenuOpen (current w)
       || searchOpen (current w))
      (document w).
Proof.
  intros T loader c doc w0 w es Hdoc Hmount Hes Hrun.
  change (iframesHidden (current w) || mobileMenuOpen (current w)
          || searchOpen (current w))
    with (iframesShouldBeHidden (current w)).
  rewrite mount_settled in Hmount. injection Hmount as <-.
  set (init := {| now := T; current := initial_state loader c; cart := c;
                  deps := None; timers := []; document := doc |}) in *.
  assert (Hsync : in_sync (settled init)).
  { destruct (settled_current init) as (_ & Hflag & _).
    unfold in_sync. rewrite Hflag. split; [|split].
    - unfold settled. cbn [current init deps first_commit initial_state
        isHydrated globalState d_isHydrated negb andb].
      destruct (dep_changed _ _ && _ && _); reflexivity.
    - eexists. split; reflexivity.
    - exact Hdoc. }
  assert (Harmed : fallback_armed T (settled init))
    by apply mount_armed.
  assert (Hgoal : in_sync w).
  { clear Hdoc. revert Hsync Harmed Hrun. generalize (settled init).
    induction Hes as [|ev es Hev Hes IH]; intros w1 Hsync Harmed Hrun.
    - injection Hrun as <-. exact Hsync.
    - cbn [run] in Hrun.
      destruct (step ev w1) as [[w2|e]|] eqn:Hstep; try discriminate.
      apply (IH w2);
        [|exact (proj1 (step_armed T ev w1 w2 Harmed Hstep))|exact Hrun].
      apply (step_in_sync T ev w1 w2); assumption. }
  destruct Hgoal as (Hhyd & _ & Hfollow). auto.
Qed.

Lemma dispatched_in_sync (w : World) (a : Action) (s1 : GlobalState) :
  in_sync w -> type a <> "SET_IS_HYDRATED" ->
  reducer (current w) a = Return s1 ->
  exists w',
    step (Dispatched a) w = Some (Return w') /\
    iframes_follow (iframesShouldBeHidden s1) (document w').
Proof.
  intros (Hhyd & (d & Hdeps & Hdep) & Hfollow) Hne Hred.
  rewrite <- Hdep in Hfollow.
  eexists. cbn [step]. rewrite Hred. split; [apply settle_settled|].
  assert (Hsync : in_sync (settled (with_current s1 w))).
  { apply (settled_in_sync _ d); [|exact Hdeps|exact Hfollow].
    cbn [current with_current].
    rewrite (reducer_keeps_isHydrated _ _ _ Hne Hred). exact Hhyd. }
  destruct Hsync as (_ & _ & Hfollow').
  destruct (settled_current (with_current s1 w)) as (_ & Hflag & _).
  rewrite Hflag in Hfollow'. exact Hfollow'.
Qed.

(** X18. On a hydrated provider whose iframes follow its state, opening
    the search or the mobile menu hides every iframe, and opening the cart,
    the desktop menu or a modal, or closing everything, leaves the iframes
    hidden exactly when [iframesHidden] is set. *)
Theorem panels_drive_iframe_visibility :
  forall (w : World) (content : Nullish Node)
         (p : option (gmap string Any)) (a : Action),
    in_sync w ->
    (a ∈ [openSearch dispatched; openMobileMenu dispatched] ->
     exists w', step (Dispatched a) w = Some (Return w') /\
                iframes_follow true (document w')) /\
    (a ∈ [openCart dispatched; openDesktopMenu dispatched;
          openModal dispatched content p; closeAll dispatched] ->
     exists w', step (Dispatched a) w = Some (Return w') /\
                iframes_follow (iframesHidden (current w)) (document w')).
Proof.
  intros w content p a Hsync. split; intros Hin;
    repeat (apply elem_of_cons in Hin as [->|Hin]);
    try (inversion Hin; fail).
  all: match goal with
       | |- exists w', step (Dispatched ?act) _ = _ /\ _ =>
           destruct (dispatched_in_sync w act
                       (match reducer (current w) act with
                        | Return s1 => s1
                        | Throw _ => current w
                        end) Hsync)
             as (w' & Hstep & Hfollow);
           [discriminate|reflexivity|]
       end.
  all: exists w'; split; [exact Hstep|].
  all: unfold iframesShouldBeHidden in Hfollow; cbn in Hfollow;
    rewrite ?orb_true_r, ?orb_false_r in Hfollow; exact Hfollow.
Qed.

(** X19. The hydration effect runs at the first commit only: once a
    consumer has cleared [isHydrated] on a mounted provider, no event other
    than a dispatch of [SET_IS_HYDRATED] sets it again, and until then the
    document stays as it is, whatever panels open. *)
Theorem cleared_hydration_freezes_iframes :
  forall (T : nat) (ev : Event) (w w' : World),
    fallback_armed T w ->
    deps w <> None ->
    isHydrated (current w) = false ->
    leaves_hydration ev ->
    step ev w = Some (Return w') ->
    isHydrated (current w') = false /\
    deps w' <> None /\
    document w' = document w.
Proof.
  intros T ev w w' Harmed Hdeps Hhyd Hleaves Hstep.
  assert (Hfrozen : forall w1 : World,
            deps w1 <> None -> isHydrated (current w1) = false ->
            isHydrated (current (settled w1)) = false /\
            deps (settled w1) <> None /\
            document (settled w1) = document w1).
  { intros w1 Hdeps1 Hhyd1.
    destruct (settled_current w1) as (_ & _ & _ & Hsame).
    rewrite (Hsame Hdeps1). split; [exact Hhyd1|].
    split; [discriminate|].
    unfold settled. cbn [document]. unfold effect_document, iframe_effect.
    rewrite Hhyd1. destruct (dep_changed _ _); reflexivity. }
  destruct ev as [a|c|].
  - cbn [step] in Hstep.
    destruct (reducer (current w) a) as [s1|e] eqn:Hred; [|discriminate].
    rewrite settle_settled in Hstep. injection Hstep as <-.
    apply (Hfrozen (with_current s1 w)); [exact Hdeps|].
    cbn [current with_current].
    rewrite (reducer_keeps_isHydrated _ _ _ Hleaves Hred). exact Hhyd.
  - cbn [step] in Hstep. rewrite settle_settled in Hstep.
    injection Hstep as <-.
    apply (Hfrozen {| now := now w; current := current w; cart := c;
                      deps := deps w; timers := timers w;
                      document := document w |}); assumption.
  - rewrite (step_Tick_state T w Harmed) in Hstep. injection Hstep as <-.
    apply (Hfrozen (ticked (tick_state w) w)); [exact Hdeps|].
    cbn [current ticked].
    rewrite (tick_state_agrees w f_isHydrated); [exact Hhyd|].
    intros Hin. apply list_elem_of_singleton in Hin. discriminate.
Qed.

Lemma reduce_all_keeps_settings (s s' : GlobalState) (queue : list Action) :
  reduce_all s queue = Return s' ->
  settings s' = settings s /\
  isPreviewModeEnabled s' = isPreviewModeEnabled s.
Proof.
  revert s. induction queue as [|a queue IH]; intros s Hred.
  - injection Hred as <-. split; reflexivity.
  - cbn [reduce_all] in Hred.
    destruct (reducer s a) as [s1|e] eqn:Hstep; [|discriminate].
    destruct (IH s1 Hred) as [-> ->].
    apply (reducer_keeps_settings s s1 a Hstep).
Qed.

Lemma settled_keeps_settings (w : World) :
  settings (current (settled w)) = settings (current w) /\
  isPreviewModeEnabled (current (settled w))
  = isPreviewModeEnabled (current w).
Proof.
  destruct (settled_current w) as (Hagree & _).
  split; [apply (Hagree f_settings)|apply (Hagree f_isPreviewModeEnabled)];
    intros Hin; apply elem_of_cons in Hin as [Heq|Hin];
    try discriminate Heq; apply list_elem_of_singleton in Hin;
    discriminate Hin.
Qed.

Lemma step_keeps_settings (ev : Event) (w w' : World) :
  step ev w = Some (Return w') ->
  settings (current w') = settings (current w) /\
  isPreviewModeEnabled (current w') = isPreviewModeEnabled (current w).
Proof.
  intros Hstep. destruct ev as [a|c|]; cbn [step] in Hstep.
  - destruct (reducer (current w) a) as [s1|e] eqn:Hred; [|discriminate].
    rewrite settle_settled in Hstep. injection Hstep as <-.
    destruct (settled_keeps_settings (with_current s1 w)) as [-> ->].
    apply (reducer_keeps_settings _ _ _ Hred).
  - rewrite settle_settled in Hstep. injection Hstep as <-.
    apply (settled_keeps_settings
             {| now := now w; current := current w; cart := c;
                deps := deps w; timers := timers w;
                document := document w |}).
  - destruct (reduce_all _ _) as [s1|e] eqn:Hred; [|discriminate].
    rewrite settle_settled in Hstep. injection Hstep as <-.
    match goal with
    | |- context [settled ?w1] =>
        destruct (settled_keeps_settings w1) as [-> ->]
    end.
    apply (reduce_all_keeps_settings _ _ _ Hred).
Qed.

(** X20. The settings and the preview-mode flag of a mounted provider stay
    the ones it was constructed with: no action, effect or timer changes
    them, whatever events follow the mount. *)
Theorem settings_stay_as_loaded :
  forall (T : nat) (loader : RootLoaderData) (c : Cart) (doc : list Element)
         (w0 w : World) (es : list Event),
    mount T loader c doc = Some (Return w0) ->
    run es w0 = Some (Return w) ->
    settings (current w) = settings (initial_state loader c) /\
    isPreviewModeEnabled (current w) = loader_isPreviewModeEnabled loader.
Proof.
  intros T loader c doc w0 w es Hmount Hrun.
  rewrite mount_settled in Hmount. injection Hmount as <-.
  match type of Hrun with
  | run _ (settled ?init) = _ =>
      destruct (settled_keeps_settings init) as [H1 H2]
  end.
  cbn [current] in H1, H2.
  change (loader_isPreviewModeEnabled loader)
    with (isPreviewModeEnabled (initial_state loader c)).
  rewrite <- H1, <- H2. clear H1 H2.
  revert Hrun. generalize (settled
    {| now := T; current := initial_state loader c; cart := c;
       deps := None; timers := []; document := doc |}).
  induction es as [|ev es IH]; intros w1 Hrun.
  - injection Hrun as <-. split; reflexivity.
  - cbn [run] in Hrun.
    destruct (step ev w1) as [[w2|e]|] eqn:Hstep; try discriminate.
    destruct (step_keeps_settings ev w1 w2 Hstep) as [<- <-].
    apply IH, Hrun.
Qed.

End Store.

(** ** The statements at sample inputs *)

Lemma unknown_kind_throws_known_kind_returns_witness :
  reducer (@searching unit unit unit unit)
    {| type := "RESIZE"; payload := tt |}
  = Throw {| message := "Invalid Context action of type: RESIZE" |} /\
  exists s', reducer (@searching unit unit unit unit)
               {| type := "OPEN_CART"; payload := tt |} = Return s'.
Proof.
  split.
  - destruct (unknown_kind_throws_known_kind_returns
                (@searching unit unit unit unit)
                {| type := "RESIZE"; payload := tt |}) as [Hunknown _].
    destruct Hunknown as [Hthrow _]; [|exact Hthrow].
    intros k. destruct k; discriminate.
  - destruct (unknown_kind_throws_known_kind_returns
                (@searching unit unit unit unit)
                {| type := "OPEN_CART"; payload := tt |}) as [_ Hknown].
    destruct Hknown as (s' & Hs' & _); [exists OPEN_CART; reflexivity|].
    exists s'. exact Hs'.
Defined.


Lemma hydration_is_idempotent_witness :
  reducer (@searching unit unit unit unit)
    {| type := "SET_IS_HYDRATED"; payload := true |} = Return searching /\
  hydration_effect (@searching unit unit unit unit) = [] /\
  (forall w', step Tick (@waiting unit unit unit unit) = Some (Return w') ->
              deps w' <> None).
Proof.
  destruct (@hydration_is_idempotent unit unit unit unit)
    as (Hreduce & Heffect & _ & Hdeps & _).
  split; [apply Hreduce; reflexivity|].
  split; [apply Heffect; reflexivity|].
  intros w'. apply Hdeps.
Defined.

Lemma iframe_visibility_effect_witness :
  committed_document
    (GlobalProvider None idle_cart
       (@initial_state unit unit unit unit sample_loader idle_cart)
       sample_document) = sample_document /\
  length (committed_document
            (GlobalProvider
               (Some {| dep_cartIsIdle := true;
                        dep_iframesShouldBeHidden := false |})
               idle_cart (@searching unit unit unit unit) sample_document))
  = 3 /\
  (exists el',
     committed_document
       (GlobalProvider
          (Some {| dep_cartIsIdle := true;
                   dep_iframesShouldBeHidden := false |})
          idle_cart (@searching unit unit unit unit) sample_document) !! 1
     = Some el' /\
     hidden el') /\
  (exists el',
     committed_document
       (GlobalProvider
          (Some {| dep_cartIsIdle := true;
                   dep_iframesShouldBeHidden := true |})
          idle_cart
          (with_searchOpen false (@searching unit unit unit unit))
          sample_document) !! 2
     = Some el' /\
     ~ hidden el').
Proof.
  split; [|split; [|split]].
  - destruct (iframe_visibility_effect None idle_cart
                (@initial_state unit unit unit unit sample_loader idle_cart)
                sample_document) as (_ & Hearly & _).
    apply Hearly. reflexivity.
  - destruct (iframe_visibility_effect
                (Some {| dep_cartIsIdle := true;
                         dep_iframesShouldBeHidden := false |})
                idle_cart (@searching unit unit unit unit) sample_document)
      as (_ & _ & _ & Hrun).
    destruct Hrun as (Hlength & _); [reflexivity..|]. exact Hlength.
  - destruct (iframe_visibility_effect
                (Some {| dep_cartIsIdle := true;
                         dep_iframesShouldBeHidden := false |})
                idle_cart (@searching unit unit unit unit) sample_document)
      as (_ & _ & _ & Hrun).
    destruct Hrun as (_ & Heach); [reflexivity..|].
    destruct (Heach 1 {| localName := "iframe"; classList := [] |})
      as (el' & Hlook & _ & Hhidden & _); [reflexivity|].
    exists el'. split; [exact Hlook|].
    apply Hhidden; reflexivity.
  - destruct (iframe_visibility_effect
                (Some {| dep_cartIsIdle := true;
                         dep_iframesShouldBeHidden := true |})
                idle_cart
                (with_searchOpen false (@searching unit unit unit unit))
                sample_document)
      as (_ & _ & _ & Hrun).
    destruct Hrun as (_ & Heach); [reflexivity..|].
    destruct (Heach 2 {| localName := "iframe";
                         classList := ["!invisible"; "video"] |})
      as (el' & Hlook & _ & Hhidden & _); [reflexivity|].
    exists el'. split; [exact Hlook|].
    intros Hhid. apply Hhidden in Hhid; [discriminate Hhid|reflexivity].
Defined.

(** ** The further properties at sample inputs *)

Arguments openCart {Customer Node Any M}.
Arguments closeCart {Customer Node Any M}.
Arguments openDesktopMenu {Customer Node Any M}.
Arguments closeDesktopMenu {Customer Node Any M}.
Arguments openMobileMenu {Customer Node Any M}.
Arguments closeMobileMenu {Customer Node Any M}.
Arguments openModal {Customer Node Any M}.
Arguments closeModal {Customer Node Any M}.
Arguments togglePromobar {Customer Node Any M}.
Arguments toggleIframesHidden {Customer Node Any M}.
Arguments openSearch {Customer Node Any M}.
Arguments closeSearch {Customer Node Any M}.
Arguments closeAll {Customer Node Any M}.
Arguments setPreviewModeCustomer {Customer Node Any M}.
Arguments setIsCartReady {Customer Node Any M}.
Arguments setIsHydrated {Customer Node Any M}.

Lemma last_open_wins_witness :
  reduce_all (@searching unit unit unit unit)
    [openCart dispatched; openSearch dispatched]
  = reduce_all searching [openSearch dispatched].
Proof. apply last_open_wins; reflexivity. Defined.

Lemma reducer_footprint_witness :
  agree_except [f_cartOpen] (@searching unit unit unit unit)
    (with_cartOpen false searching).
Proof.
  apply (reducer_footprint searching (with_cartOpen false searching)
           (closeCart dispatched) CLOSE_CART); reflexivity.
Defined.

Lemma settings_stay_as_loaded_witness :
  exists w0 w,
    @mount unit unit unit unit 0 sample_loader idle_cart sample_document
    = Some (Return w0) /\
    run [Dispatched (openCart dispatched); Tick] w0 = Some (Return w) /\
    settings (current w) = None /\
    isPreviewModeEnabled (current w) = false.
Proof.
  destruct (@mount_is_armed unit unit unit unit 0 sample_loader idle_cart
              sample_document) as (w0 & Hmount & Harmed).
  destruct (run_total 0 [Dispatched (openCart dispatched); Tick] w0 Harmed)
    as [w Hrun].
  { repeat constructor. exists OPEN_CART. reflexivity. }
  exists w0, w. split; [exact Hmount|]. split; [exact Hrun|].
  apply (settings_stay_as_loaded 0 sample_loader idle_cart sample_document
           w0 w [Dispatched (openCart dispatched); Tick] Hmount Hrun).
Defined.

Lemma single_closes_make_close_all_witness :
  reduce_all (@searching unit unit unit unit)
    [closeSearch dispatched; closeModal dispatched;
     closeMobileMenu dispatched; closeDesktopMenu dispatched;
     closeCart dispatched]
  = reducer searching (closeAll dispatched).
Proof.
  apply single_closes_make_close_all.
  change (Permutation (rev (@single_closes unit unit unit)) single_closes).
  symmetry. apply Permutation_rev.
Defined.

Lemma iframe_effect_touches_one_class_witness :
  exists el',
    iframe_effect (@searching unit unit unit unit) sample_document !! 2
    = Some el' /\
    other_classes el' = ["video"] /\
    NoDup (classList el').
Proof.
  destruct (iframe_effect_touches_one_class
              (@searching unit unit unit unit) sample_document)
    as [_ Heach].
  destruct (Heach 2 {| localName := "iframe";
                       classList := ["!invisible"; "video"] |})
    as (el' & Hlook & _ & Hother & Hnodup); [reflexivity|].
  exists el'. split; [exact Hlook|]. split; [exact Hother|].
  apply Hnodup. cbn [classList].
  apply (bool_decide_unpack _). vm_compute. exact I.
Defined.

Lemma show_undoes_hide_witness :
  iframe_effect (with_searchOpen false (@searching unit unit unit unit))
    (iframe_effect (@searching unit unit unit unit) plain_document)
  = plain_document.
Proof.
  apply show_undoes_hide; try reflexivity.
  intros el Hin Htag Hhidden. unfold hidden in Hhidden.
  apply elem_of_cons in Hin as [->|Hin]; [discriminate Htag|].
  apply list_elem_of_singleton in Hin as ->.
  cbn [classList] in Hhidden. inversion Hhidden.
Defined.

Lemma cart_report_footprint_witness :
  exists w',
    step (CartReported idle_cart) (@waiting unit unit unit unit)
    = Some (Return w') /\
    isHydrated (current w') = true /\
    promobarOpen (current w') = true.
Proof.
  destruct (cart_report_footprint (@waiting unit unit unit unit) idle_cart)
    as (w' & Hstep & _ & Hagree & _ & Hhyd & _).
  exists w'. split; [exact Hstep|]. split; [apply Hhyd; reflexivity|].
  rewrite (Hagree f_promobarOpen); [reflexivity|].
  intros Hin. apply elem_of_cons in Hin as [Heq|Hin]; [discriminate Heq|].
  apply list_elem_of_singleton in Hin. discriminate Hin.
Defined.

Lemma waiting_armed : fallback_armed 0 (@waiting unit unit unit unit).
Proof.
  split; [apply Nat.le_0_l|]. split.
  - intros t Hin. apply list_elem_of_singleton in Hin as ->.
    split; reflexivity.
  - intros _. apply list_elem_of_here.
Defined.

Lemma timers_are_never_cancelled_witness :
  exists w',
    step Tick (@waiting unit unit unit unit) = Some (Return w') /\
    {| due := 1000; callback := fallback |} ∈ timers w'.
Proof.
  destruct (step_total 0 Tick (@waiting unit unit unit unit) waiting_armed I)
    as [w' Hstep].
  exists w'. split; [exact Hstep|].
  apply (timers_are_never_cancelled Tick waiting w' _ Hstep).
  - apply list_elem_of_here.
  - destruct (step_armed 0 Tick waiting w' waiting_armed Hstep)
      as (_ & Hnow & _).
    rewrite Hnow. cbn. lia.
Defined.

Lemma every_change_arms_a_timer_witness :
  exists w',
    step (CartReported idle_cart)
      (@with_current unit unit unit unit
         (with_isCartReady true (current waiting)) waiting)
    = Some (Return w') /\
    map due (timers w') = [1000; 1005].
Proof.
  destruct (every_change_arms_a_timer
              (@with_current unit unit unit unit
                 (with_isCartReady true (current waiting)) waiting)
              {| dep_cartIsIdle := false;
                 dep_iframesShouldBeHidden := false |}
              idle_cart eq_refl)
    as (w' & Hstep & Htimers).
  exists w'. split; [exact Hstep|]. rewrite Htimers. reflexivity.
Defined.

Lemma mounted_provider_has_one_panel_witness :
  exists w0 w,
    @mount unit unit unit unit 0 sample_loader uninitialized_cart
      sample_document = Some (Return w0) /\
    run [Dispatched (openCart dispatched); Tick;
         Dispatched (openSearch dispatched)] w0 = Some (Return w) /\
    at_most_one_panel (current w).
Proof.
  destruct (@mount_is_armed unit unit unit unit 0 sample_loader
              uninitialized_cart sample_document) as (w0 & Hmount & Harmed).
  destruct (run_total 0
              [Dispatched (openCart dispatched); Tick;
               Dispatched (openSearch dispatched)] w0 Harmed)
    as [w Hrun].
  { repeat constructor; [exists OPEN_CART|exists OPEN_SEARCH]; reflexivity. }
  exists w0, w. split; [exact Hmount|]. split; [exact Hrun|].
  apply (mounted_provider_has_one_panel 0 sample_loader uninitialized_cart
           sample_document w0 w _ Hmount Hrun).
Defined.

Lemma plain_document_follows :
  @iframes_follow false plain_document.
Proof.
  intros el Hin Htag. split; [|discriminate].
  intros Hhidden. exfalso. unfold hidden in Hhidden.
  apply elem_of_cons in Hin as [->|Hin]; [discriminate Htag|].
  apply list_elem_of_singleton in Hin as ->.
  cbn [classList] in Hhidden. inversion Hhidden.
Defined.

Lemma iframes_follow_the_flag_witness :
  exists w0 w,
    @mount unit unit unit unit 0 sample_loader uninitialized_cart
      plain_document = Some (Return w0) /\
    run [Dispatched (openSearch dispatched); Tick] w0 = Some (Return w) /\
    iframes_follow
      (iframesHidden (current w) || mobileMenuOpen (current w)
       || searchOpen (current w))
      (document w).
Proof.
  destruct (@mount_is_armed unit unit unit unit 0 sample_loader
              uninitialized_cart plain_document) as (w0 & Hmount & Harmed).
  destruct (run_total 0 [Dispatched (openSearch dispatched); Tick] w0 Harmed)
    as [w Hrun].
  { repeat constructor. exists OPEN_SEARCH. reflexivity. }
  exists w0, w. split; [exact Hmount|]. split; [exact Hrun|].
  apply (iframes_follow_the_flag 0 sample_loader uninitialized_cart
           plain_document w0 w
           [Dispatched (openSearch dispatched); Tick]
           plain_document_follows Hmount);
    [|exact Hrun].
  repeat constructor. discriminate.
Defined.

Lemma synced_in_sync : in_sync (@synced unit unit unit unit).
Proof.
  split; [reflexivity|]. split; [eexists; split; reflexivity|].
  exact plain_document_follows.
Defined.

Lemma panels_drive_iframe_visibility_witness :
  (exists w',
     step (Dispatched (openSearch dispatched)) (@synced unit unit unit unit)
     = Some (Return w') /\
     iframes_follow true (document w')) /\
  (exists w',
     step (Dispatched (openCart dispatched)) (@synced unit unit unit unit)
     = Some (Return w') /\
     iframes_follow false (document w')).
Proof.
  split.
  - destruct (panels_drive_iframe_visibility synced null None
                (openSearch dispatched) synced_in_sync) as [Hhide _].
    apply Hhide. apply list_elem_of_here.
  - destruct (panels_drive_iframe_visibility synced null None
                (openCart dispatched) synced_in_sync) as [_ Hshow].
    apply Hshow. apply list_elem_of_here.
Defined.

Lemma cleared_hydration_freezes_iframes_witness :
  exists w',
    step (Dispatched (openSearch dispatched))
      (@dehydrated unit unit unit unit) = Some (Return w') /\
    isHydrated (current w') = false /\
    document w' = sample_document.
Proof.
  assert (Harmed : fallback_armed 0 (@dehydrated unit unit unit unit))
    by exact waiting_armed.
  destruct (step_total 0 (Dispatched (openSearch dispatched)) dehydrated
              Harmed) as [w' Hstep].
  { exists OPEN_SEARCH. reflexivity. }
  destruct (cleared_hydration_freezes_iframes 0
              (Dispatched (openSearch dispatched)) dehydrated w' Harmed)
    as (Hhyd & _ & Hdoc);
    [discriminate|reflexivity|discriminate|exact Hstep|].
  exists w'. split; [exact Hstep|]. split; [exact Hhyd|exact Hdoc].
Defined.
